(** * Solax X1 RS485 client: wire protocol and client orchestration

    A shallow embedding of [protocol.go], [bytes.go] and [client.go] of the
    package [solaxx1rs485], with the properties of the packet framer, of the
    response parsers, of the telemetry normaliser and of the client
    operations proved over it.

    Conventions of the embedding.
    - Go's [byte], [uint16], [uint32] and [int] values are integers of [Z];
      every conversion and every arithmetic operation of a fixed-width type
      is written with its wrap-around ([uint8], [uint16], [uint32]).
    - A slice [[]byte] is a [list Z].  Indexing and slicing are the checked
      operations [index], [slice] and [array2]/[array4]: out of range they
      give [Panic], as the Go run time does.  (Go bounds a slice expression
      by the capacity; the embedding bounds it by the length, which is never
      larger, so an expression that does not panic here does not panic in
      Go.)
    - A function returning [(T, error)] returns an [outcome T]: [Ok v] for
      [(v, nil)], [Err e] for [(zero, e)], [Panic] for a run-time panic.
    - The transport behind [Connection] is a type class; the client
      operations thread the connection state explicitly. *)

From Stdlib Require Import ZArith QArith Lia.
From stdpp Require Import base gmap list strings.

Local Open Scope string_scope.
Local Open Scope list_scope.
Local Open Scope Z_scope.

(** ** Fixed-width integers *)

Abbreviation byte := Z (only parsing).

Definition uint8 (z : Z) : Z := z mod 256.
Definition uint16 (z : Z) : Z := z mod 65536.
Definition uint32 (z : Z) : Z := z mod 4294967296.

Definition is_byte (z : Z) : Prop := 0 <= z < 256.
Definition is_uint16 (z : Z) : Prop := 0 <= z < 65536.
Definition is_uint32 (z : Z) : Prop := 0 <= z < 4294967296.

(** [len(s)], an [int]. *)
Definition len {A : Type} (l : list A) : Z := Z.of_nat (length l).

(** ** Errors

    The package declares sentinel errors with [errors.New] and wraps them
    with [fmt.Errorf("%w: ...")].  A [message] is one constructor per format
    string of the package, carrying the formatted arguments. *)

Inductive sentinel : Type :=
| ErrMaxDataSizeExceeded
| ErrInvalidBody
| ErrUnexpectedControlCode
| ErrUnexpectedFunctionCode
| ErrIncompleteRead
| ErrIncompleteWrite
| ErrNoInverter.

Inductive message : Type :=
| MsgMinimumPacketSize (got : Z)
    (* "minimum packet size is 11 bytes, got %d bytes" *)
| MsgSpecifiesLength (specified got : Z)
    (* "packet specifies length of %d, but got %d instead" *)
| MsgChecksumMismatch (specified computed : Z)
    (* "checksum mismatch: Packet specifies checksum of %X, got %X instead" *)
| MsgHeaderMismatch (got : Z)
    (* "header mismatch: Expected 0xAA55, got %X" *)
| MsgExpectedGot (expected got : Z)
    (* "Expected 0x10, got %X" and its siblings *)
| MsgExpectedDataLength1 (got : Z)
    (* "Expected data length 1, got %d" *)
| MsgGotNOACK
    (* "got NOACK" *)
| MsgExpectedACKorNOACK (ack noack got : Z)
    (* "expected ACK (%X) or NOACK (%X), got %X" *)
| MsgExpectedLength67 (got : Z)
    (* "expected length of 67, got %d" *)
| MsgInverterNil.
    (* "Inverter must not be nil" *)

Inductive error : Type :=
| Sentinel (s : sentinel)              (* the sentinel itself *)
| Wrap (s : sentinel) (m : message)    (* fmt.Errorf("%w: ...", s, ...) *)
| Errorf (m : message)                 (* fmt.Errorf without %w *)
| Transport (e : string).              (* an error of the connection *)

#[global] Instance sentinel_eq_dec : EqDecision sentinel.
Proof. solve_decision. Defined.

(** [errors.Is(e, s)] for a sentinel [s]. *)
Definition errors_Is (e : error) (s : sentinel) : bool :=
  match e with
  | Sentinel s' | Wrap s' _ => bool_decide (s' = s)
  | Errorf _ | Transport _ => false
  end.

(** ** Outcomes of a call *)

Inductive outcome (A : Type) : Type :=
| Ok (a : A)
| Err (e : error)
| Panic.

Arguments Ok {A} a.
Arguments Err {A} e.
Arguments Panic {A}.

Definition bind {A B : Type} (m : outcome A) (k : A -> outcome B) : outcome B :=
  match m with
  | Ok a => k a
  | Err e => Err e
  | Panic => Panic
  end.

Notation "x <- m ;; k" := (bind m (fun x => k))
  (at level 100, m at next level, right associativity).

Definition is_Err {A : Type} (m : outcome A) : Prop :=
  match m with Err _ => True | _ => False end.

(** ** Checked slice operations *)

(** [s[i]] *)
Definition index (s : list byte) (i : Z) : outcome byte :=
  if (0 <=? i) && (i <? len s) then
    match s !! Z.to_nat i with
    | Some b => Ok b
    | None => Panic
    end
  else Panic.

(** [s[lo:hi]] *)
Definition slice (s : list byte) (lo hi : Z) : outcome (list byte) :=
  if (0 <=? lo) && (lo <=? hi) && (hi <=? len s) then
    Ok (take (Z.to_nat (hi - lo)) (drop (Z.to_nat lo) s))
  else Panic.

(** [s[lo:]] and [s[:hi]] *)
Definition slice_from (s : list byte) (lo : Z) : outcome (list byte) :=
  slice s lo (len s).
Definition slice_to (s : list byte) (hi : Z) : outcome (list byte) :=
  slice s 0 hi.

(** The conversion of a slice to a pointer to [[2]byte], dereferenced:
    panics when [len(s) < 2]. *)
Definition array2 (s : list byte) : outcome (byte * byte) :=
  match s with
  | a :: b :: _ => Ok (a, b)
  | _ => Panic
  end.

(** The same to [[4]byte]: panics when [len(s) < 4]. *)
Definition array4 (s : list byte) : outcome (byte * byte * byte * byte) :=
  match s with
  | a :: b :: c :: d :: _ => Ok (a, b, c, d)
  | _ => Panic
  end.

(** ** bytes.go *)

Definition bytesFromUint16 (i : Z) : list byte :=
  [uint8 (i / 256); uint8 (i mod 256)].

Definition uint16FromBytes (i : byte * byte) : Z :=
  let '(i0, i1) := i in
  uint16 (uint16 (uint16 i0 * 256) + uint16 i1).

Definition uint32FromBytes (i : byte * byte * byte * byte) : Z :=
  let '(i0, i1, i2, i3) := i in
  uint32 (uint32 (uint32 (uint32 (uint32 (uint32 (uint32 i0 * 256) * 256) * 256)
                          + uint32 (uint32 (uint32 i1 * 256) * 256))
                  + uint32 (uint32 i2 * 256))
          + uint32 i3).

(** ** protocol.go: the packet *)

Definition ControlCodeRegister : byte := 0x10.
Definition ControlCodeRead : byte := 0x11.
Definition ControlCodeWrite : byte := 0x12.
Definition ControlCodeExecute : byte := 0x13.

Definition StatusACK : byte := 0x06.
Definition StatusNOACK : byte := 0x15.

Record Packet : Type := mkPacket {
  Header : Z;
  Source : Z;
  Destination : Z;
  ControlCode : byte;
  FunctionCode : byte;
  Data : list byte
}.

Definition checksum (body : list byte) : Z :=
  fold_left (fun cs b => uint16 (cs + uint16 b)) body 0.

Definition Bytes (p : Packet) : outcome (list byte) :=
  if 0xFF <? len (Data p) then Err (Sentinel ErrMaxDataSizeExceeded) else
  h0 <- index (bytesFromUint16 (Header p)) 0 ;;
  h1 <- index (bytesFromUint16 (Header p)) 1 ;;
  s0 <- index (bytesFromUint16 (Source p)) 0 ;;
  s1 <- index (bytesFromUint16 (Source p)) 1 ;;
  d0 <- index (bytesFromUint16 (Destination p)) 0 ;;
  d1 <- index (bytesFromUint16 (Destination p)) 1 ;;
  let body := [h0; h1; s0; s1; d0; d1;
               ControlCode p; FunctionCode p; uint8 (len (Data p))] in
  let body := body ++ Data p in
  let body := body ++ bytesFromUint16 (checksum body) in
  Ok body.

Definition DefaultPacket : Packet :=
  {| Header := 0xAA55; Source := 0x0000; Destination := 0x0000;
     ControlCode := 0; FunctionCode := 0; Data := [] |}.

Definition ParsePacket (res : list byte) : outcome Packet :=
  if len res <? 11 then
    Err (Wrap ErrInvalidBody (MsgMinimumPacketSize (len res)))
  else
  r8 <- index res 8 ;;
  let dataLength := r8 in
  if negb (len res =? dataLength + 11) then
    Err (Wrap ErrInvalidBody (MsgSpecifiesLength (dataLength + 11) (len res)))
  else
  tl <- slice_from res (len res - 2) ;;
  cs <- array2 tl ;;
  pre <- slice_to res (len res - 2) ;;
  if negb (checksum pre =? uint16FromBytes cs) then
    Err (Wrap ErrInvalidBody
           (MsgChecksumMismatch (uint16FromBytes cs) (checksum pre)))
  else
  hs <- slice res 0 2 ;;
  h <- array2 hs ;;
  if negb (uint16FromBytes h =? 0xAA55) then
    Err (Wrap ErrInvalidBody (MsgHeaderMismatch (uint16FromBytes h)))
  else
  hs <- slice res 0 2 ;; h <- array2 hs ;;
  ss <- slice res 2 4 ;; s <- array2 ss ;;
  ds <- slice res 4 6 ;; d <- array2 ds ;;
  cc <- index res 6 ;;
  fc <- index res 7 ;;
  dt <- slice res 9 (9 + dataLength) ;;
  Ok {| Header := uint16FromBytes h;
        Source := uint16FromBytes s;
        Destination := uint16FromBytes d;
        ControlCode := cc;
        FunctionCode := fc;
        Data := dt |}.

(** ** protocol.go: calls related to inverter registration *)

Definition with_codes (p : Packet) (control function : byte) : Packet :=
  {| Header := Header p; Source := Source p; Destination := Destination p;
     ControlCode := control; FunctionCode := function; Data := Data p |}.

Definition with_Data (p : Packet) (data : list byte) : Packet :=
  {| Header := Header p; Source := Source p; Destination := Destination p;
     ControlCode := ControlCode p; FunctionCode := FunctionCode p;
     Data := data |}.

Definition with_Destination (p : Packet) (destination : Z) : Packet :=
  {| Header := Header p; Source := Source p; Destination := destination;
     ControlCode := ControlCode p; FunctionCode := FunctionCode p;
     Data := Data p |}.

(* 0x00 *)
Definition UnregisteredInverterRequest : Packet :=
  let p := DefaultPacket in
  with_codes p ControlCodeRegister 0x00.

Module UnregisteredInverterResponse.
Record t : Type := mk { Serial : list byte }.
End UnregisteredInverterResponse.

(* 0x80 *)
Definition ParseUnregisteredInverterResponse (body : list byte)
  : outcome UnregisteredInverterResponse.t :=
  p <- ParsePacket body ;;
  if negb (ControlCode p =? ControlCodeRegister) then
    Err (Wrap ErrUnexpectedControlCode (MsgExpectedGot 0x10 (ControlCode p)))
  else if negb (FunctionCode p =? 0x80) then
    Err (Wrap ErrUnexpectedFunctionCode (MsgExpectedGot 0x80 (FunctionCode p)))
  else
    Ok {| UnregisteredInverterResponse.Serial := Data p |}.

(* 0x01.  [append(serial, address)] may write the address into spare
   capacity behind [serial]; the bytes of [serial] itself stay as they
   are. *)
Definition RegisterInverterRequest (serial : list byte) (address : byte)
  : Packet :=
  let p := DefaultPacket in
  let p := with_codes p ControlCodeRegister 0x01 in
  with_Data p (serial ++ [address]).

(* 0x81 *)
Definition ParseRegisterInverterResponse (body : list byte) : outcome unit :=
  p <- ParsePacket body ;;
  if negb (ControlCode p =? ControlCodeRegister) then
    Err (Wrap ErrUnexpectedControlCode (MsgExpectedGot 0x10 (ControlCode p)))
  else if negb (FunctionCode p =? 0x81) then
    Err (Wrap ErrUnexpectedFunctionCode (MsgExpectedGot 0x81 (FunctionCode p)))
  else
  if negb (len (Data p) =? 1) then
    Err (Wrap ErrInvalidBody (MsgExpectedDataLength1 (len (Data p))))
  else
  d0 <- index (Data p) 0 ;;
  if d0 =? StatusNOACK then
    Err (Errorf MsgGotNOACK)
  else
  d0 <- index (Data p) 0 ;;
  if negb (d0 =? StatusACK) then
    Err (Wrap ErrInvalidBody (MsgExpectedACKorNOACK StatusACK StatusNOACK d0))
  else
    Ok tt.

(* 0x02 *)
Definition UnregisterInverterRequest (serial : list byte) (address : byte)
  : Packet :=
  let p := DefaultPacket in
  let p := with_codes p ControlCodeRegister 0x02 in
  with_Data p (serial ++ [address]).

(* 0x82; the message of the function-code error reads "Expected 0x81" in the
   source, the test is against 0x82. *)
Definition ParseUnregisterInverterResponse (body : list byte) : outcome unit :=
  p <- ParsePacket body ;;
  if negb (ControlCode p =? ControlCodeRegister) then
    Err (Wrap ErrUnexpectedControlCode (MsgExpectedGot 0x10 (ControlCode p)))
  else if negb (FunctionCode p =? 0x82) then
    Err (Wrap ErrUnexpectedFunctionCode (MsgExpectedGot 0x81 (FunctionCode p)))
  else
  if negb (len (Data p) =? 1) then
    Err (Wrap ErrInvalidBody (MsgExpectedDataLength1 (len (Data p))))
  else
  d0 <- index (Data p) 0 ;;
  if d0 =? StatusNOACK then
    Err (Errorf MsgGotNOACK)
  else
  d0 <- index (Data p) 0 ;;
  if negb (d0 =? StatusACK) then
    Err (Wrap ErrInvalidBody (MsgExpectedACKorNOACK StatusACK StatusNOACK d0))
  else
    Ok tt.

(** ** protocol.go: calls related to inverter information *)

(* 0x02 *)
Definition NormalInfoRequest (address : byte) : Packet :=
  let p := DefaultPacket in
  let p := with_Destination p (uint16FromBytes (0x00, address)) in
  with_codes p ControlCodeRead 0x02.

Record NormalInfoResponse : Type := mkNormalInfoResponse {
  Temperature : Z;       (* uint16, Celsius *)
  EnergyToday : Z;       (* uint16, 0.1kWh *)
  Vpv1 : Z;              (* uint16, 0.1V *)
  Vpv2 : Z;              (* uint16, 0.1V *)
  Apv1 : Z;              (* uint16, 0.1A *)
  Apv2 : Z;              (* uint16, 0.1A *)
  Iac : Z;               (* uint16, 0.1A *)
  Vac : Z;               (* uint16, 0.1V *)
  Frequency : Z;         (* uint16, 0.01Hz *)
  Power : Z;             (* uint16, 1W *)
  Unused : Z;            (* uint16, the blank field *)
  EnergyTotal : Z;       (* uint32, 0.1kWh *)
  TimeTotal : Z;         (* uint32, hours *)
  Mode : Z;              (* uint16, inverter mode *)
  GridVoltFault : Z;     (* uint16 *)
  GridFreqFault : Z;     (* uint16 *)
  DCIFault : Z;          (* uint16 *)
  TemperatureFault : Z;  (* uint16 *)
  PV1Fault : Z;          (* uint16 *)
  PV2Fault : Z;          (* uint16 *)
  GFCFault : Z;          (* uint16 *)
  ErrMessage : Z         (* uint32, error message code *)
}.

(** The zero value [NormalInfoResponse{}]. *)
Definition NormalInfoResponse_zero : NormalInfoResponse :=
  mkNormalInfoResponse 0 0 0 0 0 0 0 0 0 0 0 0 0 0 0 0 0 0 0 0 0 0.

(** The expression [uint16FromBytes] applied to the array made of
    [data[lo:hi]], and the same for [uint32FromBytes]. *)
Definition uint16_at (data : list byte) (lo hi : Z) : outcome Z :=
  s <- slice data lo hi ;;
  a <- array2 s ;;
  Ok (uint16FromBytes a).

Definition uint32_at (data : list byte) (lo hi : Z) : outcome Z :=
  s <- slice data lo hi ;;
  a <- array4 s ;;
  Ok (uint32FromBytes a).

Definition NormalInfoResponseFromData (data : list byte)
  : outcome NormalInfoResponse :=
  if negb (len data =? 50) then Err (Sentinel ErrInvalidBody) else
  temperature <- uint16_at data 0 2 ;;
  energyToday <- uint16_at data 2 4 ;;
  vpv1 <- uint16_at data 4 6 ;;
  vpv2 <- uint16_at data 6 8 ;;
  apv1 <- uint16_at data 8 10 ;;
  apv2 <- uint16_at data 10 12 ;;
  iac <- uint16_at data 12 14 ;;
  vac <- uint16_at data 14 16 ;;
  frequency <- uint16_at data 16 18 ;;
  power <- uint16_at data 18 20 ;;
  energyTotal <- uint32_at data 22 26 ;;
  timeTotal <- uint32_at data 26 30 ;;
  mode <- uint16_at data 30 32 ;;
  gridVoltFault <- uint16_at data 32 34 ;;
  gridFreqFault <- uint16_at data 34 36 ;;
  dciFault <- uint16_at data 36 38 ;;
  temperatureFault <- uint16_at data 38 40 ;;
  pv1Fault <- uint16_at data 40 42 ;;
  pv2Fault <- uint16_at data 42 44 ;;
  gfcFault <- uint16_at data 44 46 ;;
  errMessage <- uint32_at data 46 50 ;;
  Ok {| Temperature := temperature;
        EnergyToday := energyToday;
        Vpv1 := vpv1;
        Vpv2 := vpv2;
        Apv1 := apv1;
        Apv2 := apv2;
        Iac := iac;
        Vac := vac;
        Frequency := frequency;
        Power := power;
        Unused := 0;
        EnergyTotal := energyTotal;
        TimeTotal := timeTotal;
        Mode := mode;
        GridVoltFault := gridVoltFault;
        GridFreqFault := gridFreqFault;
        DCIFault := dciFault;
        TemperatureFault := temperatureFault;
        PV1Fault := pv1Fault;
        PV2Fault := pv2Fault;
        GFCFault := gfcFault;
        ErrMessage := errMessage |}.

(* 0x82 *)
Definition ParseNormalInfoResponse (body : list byte)
  : outcome NormalInfoResponse :=
  p <- ParsePacket body ;;
  if negb (ControlCode p =? ControlCodeRead) then
    Err (Wrap ErrUnexpectedControlCode
           (MsgExpectedGot ControlCodeRead (ControlCode p)))
  else if negb (FunctionCode p =? 0x82) then
    Err (Wrap ErrUnexpectedFunctionCode (MsgExpectedGot 0x82 (FunctionCode p)))
  else
    NormalInfoResponseFromData (Data p).

Module Normalized.
(** [NormalizedNormalInfoResponse].  The [float64] fields hold the exact
    quotient of the conversion and division that computes them; the
    rounding of [float64] is not modelled. *)
Record t : Type := mk {
  Temperature : Z;          (* uint16 *)
  EnergyToday : Q;
  Vpv1 : Q;
  Vpv2 : Q;
  Apv1 : Q;
  Apv2 : Q;
  Iac : Q;
  Vac : Q;
  Frequency : Q;
  Power : Z;                (* uint16 *)
  Unused : Z;
  EnergyTotal : Q;
  TimeTotal : Z;            (* uint32 *)
  Mode : string;
  GridVoltFault : Q;
  GridFreqFault : Q;
  DCIFault : Q;
  TemperatureFault : Q;
  PV1Fault : Q;
  PV2Fault : Q;
  GFCFault : Q;
  ErrMessage : list string
}.
End Normalized.

(** [float64(x)] and [float64(x) / d] *)
Definition float64 (x : Z) : Q := inject_Z x.
Definition float64_div (x : Z) (d : positive) : Q := Qmake x d.

(** The map literal of [NormalizeInfoResponse]. *)
Definition modes : gmap Z string :=
  <[0 := "Wait"]> (<[1 := "Check"]> (<[2 := "Normal"]> (<[3 := "Fault"]>
  (<[4 := "Permanent Fault"]> (<[5 := "Update"]> (<[6 := "Selftest"]> ∅)))))).

(** [m[k]] on a [map[uint16]string]: the zero value when [k] is absent. *)
Definition map_index (m : gmap Z string) (k : Z) : string :=
  default "" (m !! k).

(** One statement of the chain that parses the error messages:
    [if x == mask { res.ErrMessage = append(res.ErrMessage, name) }],
    where [x] is [in.ErrMessage & mask]. *)
Definition append_if (x mask : Z) (errMessage : list string) (name : string)
  : list string :=
  if x =? mask then errMessage ++ [name] else errMessage.

Definition NormalizeInfoResponse (in_ : NormalInfoResponse) : Normalized.t :=
  let errMessage := [] in
  let errMessage := append_if (Z.land in_.(ErrMessage) (uint32 2147483648))
                             (uint32 2147483648) errMessage "TzProtectFault" in
  let errMessage := append_if (Z.land in_.(ErrMessage) (Z.shiftr (uint32 2147483648) 1))
                             (Z.shiftr (uint32 2147483648) 1) errMessage "MainsLostFault" in
  let errMessage := append_if (Z.land in_.(ErrMessage) (Z.shiftr (uint32 2147483648) 2))
                             (Z.shiftr (uint32 2147483648) 2) errMessage "GridVoltFault" in
  let errMessage := append_if (Z.land in_.(ErrMessage) (Z.shiftr (uint32 2147483648) 3))
                             (Z.shiftr (uint32 2147483648) 3) errMessage "GridFreqFault" in
  let errMessage := append_if (Z.land in_.(ErrMessage) (Z.shiftr (uint32 2147483648) 4))
                             (Z.shiftr (uint32 2147483648) 4) errMessage "PLLLostFault" in
  let errMessage := append_if (Z.land in_.(ErrMessage) (Z.shiftr (uint32 2147483648) 5))
                             (Z.shiftr (uint32 2147483648) 5) errMessage "BusVoltFault" in
  let errMessage := append_if (Z.land in_.(ErrMessage) (Z.shiftr (uint32 2147483648) 6))
                             (Z.shiftr (uint32 2147483648) 6) errMessage "BIT06" in
  let errMessage := append_if (Z.land in_.(ErrMessage) (Z.shiftr (uint32 2147483648) 7))
                             (Z.shiftr (uint32 2147483648) 7) errMessage "OciFault" in
  let errMessage := append_if (Z.land in_.(ErrMessage) (Z.shiftr (uint32 2147483648) 8))
                             (Z.shiftr (uint32 2147483648) 8) errMessage "Dci_OCP_Fault" in
  let errMessage := append_if (Z.land in_.(ErrMessage) (Z.shiftr (uint32 2147483648) 9))
                             (Z.shiftr (uint32 2147483648) 9) errMessage "ResidualCurrentFault" in
  let errMessage := append_if (Z.land in_.(ErrMessage) (Z.shiftr (uint32 2147483648) 10))
                             (Z.shiftr (uint32 2147483648) 10) errMessage "PvVoltFault" in
  let errMessage := append_if (Z.land in_.(ErrMessage) (Z.shiftr (uint32 2147483648) 11))
                             (Z.shiftr (uint32 2147483648) 11) errMessage "Ac10Mins_Voltage_Fault" in
  let errMessage := append_if (Z.land in_.(ErrMessage) (Z.shiftr (uint32 2147483648) 12))
                             (Z.shiftr (uint32 2147483648) 12) errMessage "IsolationFault" in
  let errMessage := append_if (Z.land in_.(ErrMessage) (Z.shiftr (uint32 2147483648) 13))
                             (Z.shiftr (uint32 2147483648) 13) errMessage "TemperatureOverFault" in
  let errMessage := append_if (Z.land in_.(ErrMessage) (Z.shiftr (uint32 2147483648) 14))
                             (Z.shiftr (uint32 2147483648) 14) errMessage "FanFault" in
  let errMessage := append_if (Z.land in_.(ErrMessage) (Z.shiftr (uint32 2147483648) 15))
                             (Z.shiftr (uint32 2147483648) 15) errMessage "bit15" in
  let errMessage := append_if (Z.land in_.(ErrMessage) (Z.shiftr (uint32 2147483648) 16))
                             (Z.shiftr (uint32 2147483648) 16) errMessage "SpiCommsFault" in
  let errMessage := append_if (Z.land in_.(ErrMessage) (Z.shiftr (uint32 2147483648) 17))
                             (Z.shiftr (uint32 2147483648) 17) errMessage "SciCommsFault" in
  let errMessage := append_if (Z.land in_.(ErrMessage) (Z.shiftr (uint32 2147483648) 18))
                             (Z.shiftr (uint32 2147483648) 18) errMessage "BIT18" in
  let errMessage := append_if (Z.land in_.(ErrMessage) (Z.shiftr (uint32 2147483648) 19))
                             (Z.shiftr (uint32 2147483648) 19) errMessage "InputConfigFault" in
  let errMessage := append_if (Z.land in_.(ErrMessage) (Z.shiftr (uint32 2147483648) 20))
                             (Z.shiftr (uint32 2147483648) 20) errMessage "EepromFault" in
  let errMessage := append_if (Z.land in_.(ErrMessage) (Z.shiftr (uint32 2147483648) 21))
                             (Z.shiftr (uint32 2147483648) 21) errMessage "RelayFault" in
  let errMessage := append_if (Z.land in_.(ErrMessage) (Z.shiftr (uint32 2147483648) 22))
                             (Z.shiftr (uint32 2147483648) 22) errMessage "SampleConsistenceFault" in
  let errMessage := append_if (Z.land in_.(ErrMessage) (Z.shiftr (uint32 2147483648) 23))
                             (Z.shiftr (uint32 2147483648) 23) errMessage "ResidualCurrent_DeviceFault" in
  let errMessage := append_if (Z.land in_.(ErrMessage) (Z.shiftr (uint32 2147483648) 24))
                             (Z.shiftr (uint32 2147483648) 24) errMessage "BIT24" in
  let errMessage := append_if (Z.land in_.(ErrMessage) (Z.shiftr (uint32 2147483648) 25))
                             (Z.shiftr (uint32 2147483648) 25) errMessage "BIT25" in
  let errMessage := append_if (Z.land in_.(ErrMessage) (Z.shiftr (uint32 2147483648) 26))
                             (Z.shiftr (uint32 2147483648) 26) errMessage "BIT26" in
  let errMessage := append_if (Z.land in_.(ErrMessage) (Z.shiftr (uint32 2147483648) 27))
                             (Z.shiftr (uint32 2147483648) 27) errMessage "BIT27" in
  let errMessage := append_if (Z.land in_.(ErrMessage) (Z.shiftr (uint32 2147483648) 28))
                             (Z.shiftr (uint32 2147483648) 28) errMessage "BIT28" in
  let errMessage := append_if (Z.land in_.(ErrMessage) (Z.shiftr (uint32 2147483648) 29))
                             (Z.shiftr (uint32 2147483648) 29) errMessage "DCI_DeviceFault" in
  let errMessage := append_if (Z.land in_.(ErrMessage) (Z.shiftr (uint32 2147483648) 30))
                             (Z.shiftr (uint32 2147483648) 30) errMessage "OtherDeviceFault" in
  let errMessage := append_if (Z.land in_.(ErrMessage) (Z.shiftr (uint32 2147483648) 31))
                             (Z.shiftr (uint32 2147483648) 31) errMessage "BIT31" in
  {| Normalized.Temperature := in_.(Temperature);
     Normalized.EnergyToday := float64_div in_.(EnergyToday) 10;
     Normalized.Vpv1 := float64_div in_.(Vpv1) 10;
     Normalized.Vpv2 := float64_div in_.(Vpv2) 10;
     Normalized.Apv1 := float64_div in_.(Apv1) 10;
     Normalized.Apv2 := float64_div in_.(Apv2) 10;
     Normalized.Iac := float64_div in_.(Iac) 10;
     Normalized.Vac := float64_div in_.(Vac) 10;
     Normalized.Frequency := float64_div in_.(Frequency) 100;
     Normalized.Power := in_.(Power);
     Normalized.Unused := 0;
     Normalized.EnergyTotal := float64_div in_.(EnergyTotal) 10;
     Normalized.TimeTotal := in_.(TimeTotal);
     Normalized.Mode := map_index modes in_.(Mode);
     Normalized.GridVoltFault := float64_div in_.(GridVoltFault) 10;
     Normalized.GridFreqFault := float64_div in_.(GridFreqFault) 100;
     Normalized.DCIFault := float64_div in_.(DCIFault) 1000;
     Normalized.TemperatureFault := float64 in_.(TemperatureFault);
     Normalized.PV1Fault := float64_div in_.(PV1Fault) 10;
     Normalized.PV2Fault := float64_div in_.(PV2Fault) 10;
     Normalized.GFCFault := float64_div in_.(GFCFault) 1000;
     Normalized.ErrMessage := errMessage |}.

(* 0x03 *)
Definition InverterInfoRequest (address : byte) : Packet :=
  let p := DefaultPacket in
  let p := with_Destination p (uint16FromBytes (0x00, address)) in
  with_codes p ControlCodeRead 0x03.

(** The [string] fields hold the bytes of the conversion [string(data[a:b])]. *)
Record InverterInfoResponse : Type := mkInverterInfoResponse {
  Phase : byte;
  RatedPower : list byte;
  FirmwareVersion : list byte;
  ModuleName : list byte;
  FactoryName : list byte;
  SerialNumber : list byte;
  RatedBusVoltage : list byte
}.

Definition InverterInfoResponseFromData (data : list byte)
  : outcome InverterInfoResponse :=
  if len data <? 67 then
    Err (Wrap ErrInvalidBody (MsgExpectedLength67 (len data)))
  else
  phase <- index data 9 ;;
  ratedPower <- slice data 10 16 ;;
  firmwareVersion <- slice data 16 21 ;;
  moduleName <- slice data 21 35 ;;
  factoryName <- slice data 35 49 ;;
  serialNumber <- slice data 49 63 ;;
  ratedBusVoltage <- slice data 63 67 ;;
  Ok {| Phase := phase;
        RatedPower := ratedPower;
        FirmwareVersion := firmwareVersion;
        ModuleName := moduleName;
        FactoryName := factoryName;
        SerialNumber := serialNumber;
        RatedBusVoltage := ratedBusVoltage |}.

(* 0x83 *)
Definition ParseInverterInfoResponse (body : list byte)
  : outcome InverterInfoResponse :=
  p <- ParsePacket body ;;
  if negb (ControlCode p =? ControlCodeRead) then
    Err (Wrap ErrUnexpectedControlCode
           (MsgExpectedGot ControlCodeRead (ControlCode p)))
  else if negb (FunctionCode p =? 0x83) then
    Err (Wrap ErrUnexpectedFunctionCode (MsgExpectedGot 0x83 (FunctionCode p)))
  else
    InverterInfoResponseFromData (Data p).

(** ** client.go *)

(** The [Connection] interface, over the state [C] of the transport.  Each
    method returns the state it leaves behind together with its results.
    [conn_ReadAll] is the call [io.ReadAll(c.Conn)] as a whole: the bytes
    read until end of input or an error, and that error. *)
Class Connection (C : Type) : Type := {
  conn_Flush : C -> C * option error;
  conn_Write : C -> list byte -> C * (Z * option error);
  conn_ReadAll : C -> C * (list byte * option error);
  conn_Close : C -> C * option error
}.

Record Inverter : Type := mkInverter {
  Serial : list byte;
  Address : byte
}.

Section Client.
Context {C : Type} `{Connection C}.

Record Client : Type := mkClient {
  Conn : C;
  LastResponse : list byte;
  WaitTime : Z   (* time.Duration *)
}.

Definition NewClientWithConnection (conn : C) : Client :=
  {| Conn := conn; LastResponse := []; WaitTime := 250 * 1000000 |}.

Definition with_Conn (c : Client) (conn : C) : Client :=
  {| Conn := conn; LastResponse := LastResponse c; WaitTime := WaitTime c |}.

Definition Send (c : Client) (req : list byte) : Client * option error :=
  let '(conn, (n, err)) := conn_Write (Conn c) req in
  let c := with_Conn c conn in
  match err with
  | Some e => (c, Some e)
  | None =>
    if negb (n =? len req) then (c, Some (Sentinel ErrIncompleteWrite))
    else (c, None)
  end.

(** [time.Sleep(c.WaitTime)] leaves the state as it is: the passing of
    time is in the behaviour of the connection. *)
Definition Read (c : Client) : Client * (list byte * option error) :=
  let '(conn, (response, err)) := conn_ReadAll (Conn c) in
  let c := {| Conn := conn; LastResponse := response;
              WaitTime := WaitTime c |} in
  (c, (response, err)).

(** The operations return the client they leave behind and their Go
    results.  A pointer [*Inverter] that may be [nil] is an
    [option Inverter]; an operation that assigns through the pointer also
    returns the inverter it leaves behind. *)

Definition FindUnregisteredInverter (c : Client)
  : Client * outcome Inverter :=
  let '(conn, err) := conn_Flush (Conn c) in
  let c := with_Conn c conn in
  match err with
  | Some e => (c, Err e)
  | None =>
    match Bytes UnregisteredInverterRequest with
    | Panic => (c, Panic)
    | Err e => (c, Err e)
    | Ok req =>
      let '(c, err) := Send c req in
      match err with
      | Some e => (c, Err e)
      | None =>
        let '(c, (resp, err)) := Read c in
        match err with
        | Some e => (c, Err e)
        | None =>
          if len resp =? 0 then (c, Err (Sentinel ErrNoInverter)) else
          match ParseUnregisteredInverterResponse resp with
          | Panic => (c, Panic)
          | Err e => (c, Err e)
          | Ok r =>
            (c, Ok {| Serial := UnregisteredInverterResponse.Serial r;
                      Address := 0 |})
          end
        end
      end
    end
  end.

Definition RegisterInverter (c : Client) (inverter : option Inverter)
    (address : byte) : Client * option Inverter * outcome unit :=
  match inverter with
  | None => (c, inverter, Err (Errorf MsgInverterNil))
  | Some inv =>
    let '(conn, err) := conn_Flush (Conn c) in
    let c := with_Conn c conn in
    match err with
    | Some e => (c, inverter, Err e)
    | None =>
      match Bytes (RegisterInverterRequest (Serial inv) address) with
      | Panic => (c, inverter, Panic)
      | Err e => (c, inverter, Err e)
      | Ok req =>
        let '(c, err) := Send c req in
        match err with
        | Some e => (c, inverter, Err e)
        | None =>
          let '(c, (resp, err)) := Read c in
          match err with
          | Some e => (c, inverter, Err e)
          | None =>
            match ParseRegisterInverterResponse resp with
            | Panic => (c, inverter, Panic)
            | Err e => (c, inverter, Err e)
            | Ok _ =>
              let inv := {| Serial := Serial inv; Address := address |} in
              (c, Some inv, Ok tt)
            end
          end
        end
      end
    end
  end.

Definition UnregisterInverter (c : Client) (inverter : option Inverter)
  : Client * option Inverter * outcome unit :=
  match inverter with
  | None => (c, inverter, Err (Errorf MsgInverterNil))
  | Some inv =>
    let '(conn, err) := conn_Flush (Conn c) in
    let c := with_Conn c conn in
    match err with
    | Some e => (c, inverter, Err e)
    | None =>
      match Bytes (UnregisterInverterRequest (Serial inv) (Address inv)) with
      | Panic => (c, inverter, Panic)
      | Err e => (c, inverter, Err e)
      | Ok req =>
        let '(c, err) := Send c req in
        match err with
        | Some e => (c, inverter, Err e)
        | None =>
          let '(c, (resp, err)) := Read c in
          match err with
          | Some e => (c, inverter, Err e)
          | None =>
            match ParseUnregisterInverterResponse resp with
            | Panic => (c, inverter, Panic)
            | Err e => (c, inverter, Err e)
            | Ok _ =>
              let inv := {| Serial := Serial inv; Address := 0x00 |} in
              (c, Some inv, Ok tt)
            end
          end
        end
      end
    end
  end.

Definition GetInfo (c : Client) (inverter : option Inverter)
  : Client * outcome NormalInfoResponse :=
  match inverter with
  | None => (c, Err (Errorf MsgInverterNil))
  | Some inv =>
    let '(conn, err) := conn_Flush (Conn c) in
    let c := with_Conn c conn in
    match err with
    | Some e => (c, Err e)
    | None =>
      match Bytes (NormalInfoRequest (Address inv)) with
      | Panic => (c, Panic)
      | Err e => (c, Err e)
      | Ok req =>
        let '(c, err) := Send c req in
        match err with
        | Some e => (c, Err e)
        | None =>
          let '(c, (resp, err)) := Read c in
          match err with
          | Some e => (c, Err e)
          | None => (c, ParseNormalInfoResponse resp)
          end
        end
      end
    end
  end.

Definition GetInverterInfo (c : Client) (inverter : option Inverter)
  : Client * outcome InverterInfoResponse :=
  match inverter with
  | None => (c, Err (Errorf MsgInverterNil))
  | Some inv =>
    let '(conn, err) := conn_Flush (Conn c) in
    let c := with_Conn c conn in
    match err with
    | Some e => (c, Err e)
    | None =>
      match Bytes (InverterInfoRequest (Address inv)) with
      | Panic => (c, Panic)
      | Err e => (c, Err e)
      | Ok req =>
        let '(c, err) := Send c req in
        match err with
        | Some e => (c, Err e)
        | None =>
          let '(c, (resp, err)) := Read c in
          match err with
          | Some e => (c, Err e)
          | None => (c, ParseInverterInfoResponse resp)
          end
        end
      end
    end
  end.

(** The exchange every operation begins with, in the words of the
    specification: flush the stale input, encode and send the request,
    wait, read what is available.  It returns the bytes read. *)
Definition exchange (c : Client) (request : Packet)
  : Client * outcome (list byte) :=
  let '(conn, err) := conn_Flush (Conn c) in
  let c := with_Conn c conn in
  match err with
  | Some e => (c, Err e)
  | None =>
    match Bytes request with
    | Panic => (c, Panic)
    | Err e => (c, Err e)
    | Ok req =>
      let '(c, err) := Send c req in
      match err with
      | Some e => (c, Err e)
      | None =>
        let '(c, (resp, err)) := Read c in
        match err with
        | Some e => (c, Err e)
        | None => (c, Ok resp)
        end
      end
    end
  end.

(** The exchange of [request] on [c] goes as far as the read, and the read
    returns zero bytes and no error. *)
Definition reads_nothing (c : Client) (request : Packet) : Prop :=
  snd (exchange c request) = Ok [].


End Client.

Arguments Client C : clear implicits.

(** A scripted connection, to run the client operations on: it fails where
    its script says so, records what is written and answers every read with
    [reply]. *)
Module Script.
Record conn : Type := mk {
  flush_error : option error;
  write_error : option error;
  write_short : Z;            (* bytes a write falls short by *)
  reply : list byte;
  read_error : option error;
  written : list byte
}.

#[global] Instance connection : Connection conn := {|
  conn_Flush c := (c, flush_error c);
  conn_Write c b :=
    ({| flush_error := flush_error c; write_error := write_error c;
        write_short := write_short c; reply := reply c;
        read_error := read_error c; written := written c ++ b |},
     (len b - write_short c, write_error c));
  conn_ReadAll c := (c, (reply c, read_error c));
  conn_Close c := (c, None)
|}.

(** A connection on which everything succeeds and the device answers
    [reply]. *)
Definition answering (reply : list byte) : conn :=
  mk None None 0 reply None [].
End Script.

(** * Specification vocabulary

    The error kinds of the specification, and the kind of each error value
    the package can return. *)

Inductive error_kind : Type :=
| FrameTooShort
| LengthMismatch
| ChecksumMismatch
| BadHeader
| PayloadTooLarge
| UnexpectedControlCode
| UnexpectedFunctionCode
| MalformedStatus
| DeviceRejected
| MalformedPayload
| NoDeviceResponded
| IncompleteWrite
| InvalidArgument
| IOError.

Definition kind_of (e : error) : option error_kind :=
  match e with
  | Sentinel ErrMaxDataSizeExceeded => Some PayloadTooLarge
  | Wrap ErrInvalidBody (MsgMinimumPacketSize _) => Some FrameTooShort
  | Wrap ErrInvalidBody (MsgSpecifiesLength _ _) => Some LengthMismatch
  | Wrap ErrInvalidBody (MsgChecksumMismatch _ _) => Some ChecksumMismatch
  | Wrap ErrInvalidBody (MsgHeaderMismatch _) => Some BadHeader
  | Wrap ErrUnexpectedControlCode (MsgExpectedGot _ _) =>
      Some UnexpectedControlCode
  | Wrap ErrUnexpectedFunctionCode (MsgExpectedGot _ _) =>
      Some UnexpectedFunctionCode
  | Wrap ErrInvalidBody (MsgExpectedDataLength1 _) => Some MalformedStatus
  | Wrap ErrInvalidBody (MsgExpectedACKorNOACK _ _ _) => Some MalformedStatus
  | Errorf MsgGotNOACK => Some DeviceRejected
  | Sentinel ErrInvalidBody => Some MalformedPayload
  | Wrap ErrInvalidBody (MsgExpectedLength67 _) => Some MalformedPayload
  | Sentinel ErrNoInverter => Some NoDeviceResponded
  | Sentinel ErrIncompleteWrite => Some IncompleteWrite
  | Errorf MsgInverterNil => Some InvalidArgument
  | Transport _ => Some IOError
  | _ => None
  end.

(** [r] is the error [e], of kind [k]. *)
Definition fails_with {A : Type} (r : outcome A) (e : error) (k : error_kind)
  : Prop :=
  r = Err e /\ kind_of e = Some k.

(** The sum of the bytes, without wrap-around. *)
Definition byte_sum (l : list byte) : Z := fold_right Z.add 0 l.

(** Two bytes, most significant first, as a number; a 16-bit number as its
    two bytes, most significant first. *)
Definition be16 (hi lo : byte) : Z := hi * 256 + lo.
Definition be16_bytes (x : Z) : list byte := [x / 256; x mod 256].

(** The element at position [i], for the statements. *)
Definition at_ (l : list byte) (i : Z) : byte := nth (Z.to_nat i) l 0.

Definition wf_packet (p : Packet) : Prop :=
  is_uint16 (Header p) /\ is_uint16 (Source p) /\ is_uint16 (Destination p) /\
  is_byte (ControlCode p) /\ is_byte (FunctionCode p) /\
  Forall is_byte (Data p).

(** The frame of a packet, in the words of the specification: header,
    source, destination (two bytes each, most significant first), control
    code, function code, length of the payload, the payload, and the sum of
    all these bytes modulo 65536 (two bytes, most significant first). *)
Definition frame_layout (p : Packet) : list byte :=
  let body := be16_bytes (Header p) ++ be16_bytes (Source p)
              ++ be16_bytes (Destination p)
              ++ [ControlCode p] ++ [FunctionCode p] ++ [len (Data p)]
              ++ Data p in
  body ++ be16_bytes (byte_sum body mod 65536).

(** Encoding [p] and decoding the result succeed and give back the payload
    and every field of the envelope. *)
Definition roundtrip (p : Packet) : Prop :=
  exists (bs : list byte) (q : Packet),
    Bytes p = Ok bs /\ ParsePacket bs = Ok q /\
    Data q = Data p /\ Header q = Header p /\ Source q = Source p /\
    Destination q = Destination p /\ ControlCode q = ControlCode p /\
    FunctionCode q = FunctionCode p.

(** The first of the four checks of the decoder that fails on [res], in the
    words of the specification; [None] when all four pass. *)
Definition first_failing_check (res : list byte) : option error_kind :=
  if len res <? 11 then Some FrameTooShort
  else if negb (at_ res 8 + 11 =? len res) then Some LengthMismatch
  else if negb (byte_sum (take (length res - 2) res) mod 65536
                =? be16 (at_ res (len res - 2)) (at_ res (len res - 1)))
  then Some ChecksumMismatch
  else if negb (be16 (at_ res 0) (at_ res 1) =? 0xAA55) then Some BadHeader
  else None.

(** What a status-only response is worth, in the words of the
    specification: the control code must be 0x10, the function code the
    response code of the operation, the payload one status byte, 0x06 for
    success or 0x15 for a rejection.  [None] is success. *)
Definition status_verdict (response_code : byte) (p : Packet)
  : option error_kind :=
  if negb (ControlCode p =? 0x10) then Some UnexpectedControlCode
  else if negb (FunctionCode p =? response_code) then
    Some UnexpectedFunctionCode
  else
    match Data p with
    | [status] =>
      if status =? 0x06 then None
      else if status =? 0x15 then Some DeviceRejected
      else Some MalformedStatus
    | _ => Some MalformedStatus
    end.

Definition agrees (r : outcome unit) (v : option error_kind) : Prop :=
  match v with
  | None => r = Ok tt
  | Some k => exists e : error, fails_with r e k
  end.

(** The response of a device that acknowledges a registration. *)
Definition ack_frame : list byte :=
  [0xAA; 0x55; 0; 0; 0; 0; 0x10; 0x81; 1; 0x06; 0x01; 0x97].

(** The table of the comment "ErrMessage details" of the source: entry [k]
    is the name the comment gives to bit [k] of the error message code. *)
Definition fault_table : list string :=
  ["TzProtectFault"; "MainsLostFault"; "GridVoltFault"; "GridFreqFault";
   "PLLLostFault"; "BusVoltFault"; "BIT06"; "OciFault";
   "Dci_OCP_Fault"; "ResidualCurrentFault"; "PvVoltFault"; "Ac10Mins_Voltage_Fault";
   "IsolationFault"; "TemperatureOverFault"; "FanFault"; "bit15";
   "SpiCommsFault"; "SciCommsFault"; "BIT18"; "InputConfigFault";
   "EepromFault"; "RelayFault"; "SampleConsistenceFault"; "ResidualCurrent_DeviceFault";
   "BIT24"; "BIT25"; "BIT26"; "BIT27";
   "BIT28"; "DCI_DeviceFault"; "OtherDeviceFault"; "BIT31"].

Definition fault_name (k : nat) : string := nth k fault_table "".

(** The names of the bits that are set, by the documented table, from bit 31
    down to bit 0. *)
Definition fault_names_spec (mask : Z) : list string :=
  flat_map (fun k => if Z.testbit mask (Z.of_nat k) then [fault_name k] else [])
           (rev (seq 0 32)).

(** The name of a mode code, with the empty string for a code that has
    none. *)
Definition mode_name (m : Z) : string :=
  if m =? 0 then "Wait"
  else if m =? 1 then "Check"
  else if m =? 2 then "Normal"
  else if m =? 3 then "Fault"
  else if m =? 4 then "Permanent Fault"
  else if m =? 5 then "Update"
  else if m =? 6 then "Selftest"
  else "".

(** A telemetry record with the given mode and error message code, zero
    elsewhere. *)
Definition info_with (mode errMessage : Z) : NormalInfoResponse :=
  mkNormalInfoResponse 0 0 0 0 0 0 0 0 0 0 0 0 0 mode 0 0 0 0 0 0 0 errMessage.

(** A packet to run the framer on. *)
Definition sample_packet : Packet :=
  RegisterInverterRequest [0x31; 0x32; 0x33] 0x0A.

(** Four bytes, most significant first, as a number. *)
Definition be32 (b0 b1 b2 b3 : byte) : Z :=
  b0 * 16777216 + b1 * 65536 + b2 * 256 + b3.

(** The number of bits set among bits 0 to 31 of [e]. *)
Definition set_bits_32 (e : Z) : nat :=
  length (List.filter (fun k => Z.testbit e (Z.of_nat k)) (seq 0 32)).

(** [p] with other addresses. *)
Definition with_addresses (p : Packet) (source destination : Z) : Packet :=
  {| Header := Header p; Source := source; Destination := destination;
     ControlCode := ControlCode p; FunctionCode := FunctionCode p;
     Data := Data p |}.

(** * Lemmas on the integers and the slices *)

Ltac in_range :=
  repeat match goal with
         | |- wf_packet ?p =>
             let q := eval compute in p in
             change (wf_packet q); unfold wf_packet; cbn
         | |- Forall _ _ => constructor
         | |- _ /\ _ => split
         | |- is_byte _ => unfold is_byte; simpl; lia
         | |- is_uint16 _ => unfold is_uint16; simpl; lia
         | |- is_uint32 _ => unfold is_uint32; simpl; lia
         end.


Lemma uint8_id (z : Z) : is_byte z -> uint8 z = z.
Proof. unfold is_byte, uint8. intros Hz. apply Z.mod_small. lia. Qed.

Lemma uint16_id (z : Z) : is_uint16 z -> uint16 z = z.
Proof. unfold is_uint16, uint16. intros Hz. apply Z.mod_small. lia. Qed.

Lemma uint16_range (z : Z) : is_uint16 (uint16 z).
Proof. unfold is_uint16, uint16. apply Z.mod_pos_bound. lia. Qed.

Lemma uint16FromBytes_be16 (a b : byte) :
  is_byte a -> is_byte b -> uint16FromBytes (a, b) = be16 a b.
Proof.
  unfold is_byte, uint16FromBytes, be16, uint16. intros Ha Hb.
  rewrite (Z.mod_small a), (Z.mod_small b) by lia.
  rewrite (Z.mod_small (a * 256)) by lia.
  apply Z.mod_small. lia.
Qed.

Lemma bytesFromUint16_be16_bytes (x : Z) :
  is_uint16 x -> bytesFromUint16 x = be16_bytes x.
Proof.
  unfold is_uint16, bytesFromUint16, be16_bytes, uint8. intros Hx.
  assert (0 <= x / 256 < 256) by (split; [apply Z.div_pos | apply Z.div_lt_upper_bound]; lia).
  assert (0 <= x mod 256 < 256) by (apply Z.mod_pos_bound; lia).
  rewrite (Z.mod_small (x / 256)), (Z.mod_small (x mod 256)) by lia.
  reflexivity.
Qed.

Lemma uint16FromBytes_bytesFromUint16 (x : Z) :
  is_uint16 x ->
  uint16FromBytes (uint8 (x / 256), uint8 (x mod 256)) = x.
Proof.
  intros Hx. pose proof (bytesFromUint16_be16_bytes x Hx) as E.
  unfold bytesFromUint16, be16_bytes in E. injection E as -> ->.
  unfold is_uint16 in Hx.
  rewrite uint16FromBytes_be16; unfold is_byte, be16.
  - pose proof (Z.div_mod x 256). lia.
  - split; [apply Z.div_pos | apply Z.div_lt_upper_bound]; lia.
  - apply Z.mod_pos_bound; lia.
Qed.

Lemma checksum_fold (l : list byte) (a : Z) :
  fold_left (fun cs b => uint16 (cs + uint16 b)) l (uint16 a)
  = uint16 (a + byte_sum l).
Proof.
  revert a. induction l as [|b l IH]; intros a; simpl.
  - f_equal. lia.
  - assert (uint16 (uint16 a + uint16 b) = uint16 (a + b)) as ->
      by (unfold uint16; symmetry; apply Z.add_mod; lia).
    rewrite IH. f_equal. lia.
Qed.

Lemma checksum_byte_sum (l : list byte) :
  checksum l = byte_sum l mod 65536.
Proof. unfold checksum. apply (checksum_fold l 0). Qed.

Lemma checksum_range (l : list byte) : is_uint16 (checksum l).
Proof. rewrite checksum_byte_sum. apply uint16_range. Qed.

Lemma len_nonneg {A : Type} (l : list A) : 0 <= len l.
Proof. unfold len. lia. Qed.

Lemma len_app {A : Type} (l k : list A) : len (l ++ k) = len l + len k.
Proof. unfold len. rewrite length_app. lia. Qed.

Lemma len_cons {A : Type} (x : A) (l : list A) : len (x :: l) = 1 + len l.
Proof. unfold len. simpl. lia. Qed.

Lemma index_in_range (s : list byte) (i : Z) :
  0 <= i < len s -> index s i = Ok (at_ s i).
Proof.
  unfold index, at_, len. intros Hi.
  destruct (0 <=? i) eqn:E1; [|lia]. destruct (i <? _) eqn:E2; [|lia]. simpl.
  destruct (s !! Z.to_nat i) as [b|] eqn:E.
  - f_equal. symmetry. apply nth_lookup_Some with (d := 0) in E. exact E.
  - apply lookup_ge_None in E. lia.
Qed.

Lemma slice_in_range (s : list byte) (lo hi : Z) :
  0 <= lo -> lo <= hi -> hi <= len s ->
  slice s lo hi = Ok (take (Z.to_nat (hi - lo)) (drop (Z.to_nat lo) s)).
Proof.
  unfold slice. intros H1 H2 H3.
  destruct (0 <=? lo) eqn:E1; [|lia]. destruct (lo <=? hi) eqn:E2; [|lia].
  destruct (hi <=? len s) eqn:E3; [|lia]. reflexivity.
Qed.

Lemma slice_length (s t : list byte) (lo hi : Z) :
  slice s lo hi = Ok t -> len t = hi - lo.
Proof.
  unfold slice, len.
  destruct (0 <=? lo) eqn:E1; [|discriminate].
  destruct (lo <=? hi) eqn:E2; [|discriminate].
  destruct (hi <=? _) eqn:E3; [|discriminate].
  intros [= <-]. rewrite length_take, length_drop. lia.
Qed.

Lemma array2_enough (s : list byte) :
  2 <= len s -> array2 s = Ok (at_ s 0, at_ s 1).
Proof. destruct s as [|a [|b s]]; unfold len; simpl; intros; [lia..|reflexivity]. Qed.

Lemma array4_enough (s : list byte) :
  4 <= len s -> array4 s = Ok (at_ s 0, at_ s 1, at_ s 2, at_ s 3).
Proof.
  destruct s as [|a [|b [|c [|d s]]]]; unfold len; simpl; intros;
    [lia..|reflexivity].
Qed.

Lemma at_drop (s : list byte) (n : nat) (i : Z) :
  0 <= i -> at_ (drop n s) i = at_ s (Z.of_nat n + i).
Proof.
  intros Hi. unfold at_.
  replace (Z.to_nat (Z.of_nat n + i)) with (n + Z.to_nat i)%nat by lia.
  revert s. induction n as [|n IH]; intros s; simpl; [reflexivity|].
  destruct s as [|x s]; simpl.
  - destruct (Z.to_nat i); reflexivity.
  - apply IH.
Qed.

Lemma at_take (s : list byte) (n : nat) (i : Z) :
  (Z.to_nat i < n)%nat -> at_ (take n s) i = at_ s i.
Proof.
  unfold at_. generalize (Z.to_nat i) as k. intros k. revert s k.
  induction n as [|n IH]; intros s k Hk; [lia|].
  destruct s as [|x s]; simpl; [destruct k; reflexivity|].
  destruct k as [|k]; [reflexivity|]. simpl. apply IH. lia.
Qed.

Lemma Forall_at (P : Z -> Prop) (s : list byte) (i : Z) :
  Forall P s -> 0 <= i < len s -> P (at_ s i).
Proof.
  unfold at_, len. intros HP Hi.
  rewrite Forall_forall in HP. apply HP.
  apply list_elem_of_In, nth_In. lia.
Qed.

Lemma array2_slice (s : list byte) (lo hi : Z) :
  0 <= lo -> lo + 2 <= hi -> hi <= len s ->
  array2 (take (Z.to_nat (hi - lo)) (drop (Z.to_nat lo) s))
  = Ok (at_ s lo, at_ s (lo + 1)).
Proof.
  intros H1 H2 H3. rewrite array2_enough.
  - rewrite !at_take, !at_drop by lia. do 3 f_equal; lia.
  - unfold len in *. rewrite length_take, length_drop. lia.
Qed.

Lemma array4_slice (s : list byte) (lo hi : Z) :
  0 <= lo -> lo + 4 <= hi -> hi <= len s ->
  array4 (take (Z.to_nat (hi - lo)) (drop (Z.to_nat lo) s))
  = Ok (at_ s lo, at_ s (lo + 1), at_ s (lo + 2), at_ s (lo + 3)).
Proof.
  intros H1 H2 H3. rewrite array4_enough.
  - rewrite !at_take, !at_drop by lia. do 5 f_equal; lia.
  - unfold len in *. rewrite length_take, length_drop. lia.
Qed.

(** * The packet framer *)

(** [ParsePacket] without its bounds checks: every index and slice
    expression is in range where it is evaluated. *)
Lemma ParsePacket_checked (res : list byte) :
  ParsePacket res =
  if len res <? 11 then
    Err (Wrap ErrInvalidBody (MsgMinimumPacketSize (len res)))
  else if negb (len res =? at_ res 8 + 11) then
    Err (Wrap ErrInvalidBody (MsgSpecifiesLength (at_ res 8 + 11) (len res)))
  else if negb (checksum (take (Z.to_nat (len res - 2)) res)
                =? uint16FromBytes (at_ res (len res - 2), at_ res (len res - 1)))
  then
    Err (Wrap ErrInvalidBody
           (MsgChecksumMismatch
              (uint16FromBytes (at_ res (len res - 2), at_ res (len res - 1)))
              (checksum (take (Z.to_nat (len res - 2)) res))))
  else if negb (uint16FromBytes (at_ res 0, at_ res 1) =? 0xAA55) then
    Err (Wrap ErrInvalidBody
           (MsgHeaderMismatch (uint16FromBytes (at_ res 0, at_ res 1))))
  else
    Ok {| Header := uint16FromBytes (at_ res 0, at_ res 1);
          Source := uint16FromBytes (at_ res 2, at_ res 3);
          Destination := uint16FromBytes (at_ res 4, at_ res 5);
          ControlCode := at_ res 6;
          FunctionCode := at_ res 7;
          Data := take (Z.to_nat (at_ res 8)) (drop 9 res) |}.
Proof.
  unfold ParsePacket.
  destruct (len res <? 11) eqn:Elen; [reflexivity|].
  apply Z.ltb_ge in Elen.
  rewrite index_in_range by lia. cbn [bind].
  destruct (len res =? at_ res 8 + 11) eqn:Edl; [|reflexivity].
  apply Z.eqb_eq in Edl. cbn [negb].
  unfold slice_from, slice_to.
  rewrite !slice_in_range by lia. cbn [bind].
  rewrite array2_slice by lia. cbn [bind].
  replace (len res - 2 + 1) with (len res - 1) by lia.
  replace (take (Z.to_nat (len res - 2 - 0)) (drop (Z.to_nat 0) res))
    with (take (Z.to_nat (len res - 2)) res)
    by (change (Z.to_nat 0) with 0%nat; rewrite drop_0; f_equal; lia).
  destruct (checksum _ =? _); [|reflexivity]. cbn [negb].
  rewrite !array2_slice by lia. cbn [bind].
  change (0 + 1) with 1. change (2 + 1) with 3. change (4 + 1) with 5.
  destruct (uint16FromBytes (at_ res 0, at_ res 1) =? 43605) eqn:Eh;
    [|reflexivity].
  cbn [negb].
  rewrite !index_in_range by lia. cbn [bind].
  replace (9 + at_ res 8 - 9) with (at_ res 8) by lia.
  reflexivity.
Qed.

Lemma at_app_tail (l k : list byte) (i : Z) :
  0 <= i -> at_ (l ++ k) (len l + i) = at_ k i.
Proof.
  intros Hi. unfold at_, len.
  replace (Z.to_nat (Z.of_nat (length l) + i)) with (length l + Z.to_nat i)%nat
    by lia.
  rewrite app_nth2 by lia. f_equal. lia.
Qed.

(** [Bytes] without its bounds checks. *)
Lemma Bytes_checked (p : Packet) :
  Bytes p =
  if 0xFF <? len (Data p) then Err (Sentinel ErrMaxDataSizeExceeded) else
  let body := bytesFromUint16 (Header p) ++ bytesFromUint16 (Source p)
              ++ bytesFromUint16 (Destination p)
              ++ [ControlCode p; FunctionCode p; uint8 (len (Data p))]
              ++ Data p in
  Ok (body ++ bytesFromUint16 (checksum body)).
Proof. unfold Bytes. destruct (_ <? _); reflexivity. Qed.

(** [ParsePacket] on a frame: nine bytes of envelope whose ninth is the
    length of the payload, the payload, two bytes of checksum. *)
Lemma ParsePacket_frame (h0 h1 s0 s1 d0 d1 cc fc : byte) (data : list byte)
    (c0 c1 : byte) :
  let body := [h0; h1; s0; s1; d0; d1; cc; fc; len data] ++ data in
  ParsePacket (body ++ [c0; c1]) =
  if negb (checksum body =? uint16FromBytes (c0, c1)) then
    Err (Wrap ErrInvalidBody
           (MsgChecksumMismatch (uint16FromBytes (c0, c1)) (checksum body)))
  else if negb (uint16FromBytes (h0, h1) =? 0xAA55) then
    Err (Wrap ErrInvalidBody (MsgHeaderMismatch (uint16FromBytes (h0, h1))))
  else
    Ok {| Header := uint16FromBytes (h0, h1);
          Source := uint16FromBytes (s0, s1);
          Destination := uint16FromBytes (d0, d1);
          ControlCode := cc;
          FunctionCode := fc;
          Data := data |}.
Proof.
  intros body. rewrite ParsePacket_checked.
  assert (Hlen : len (body ++ [c0; c1]) = 11 + len data).
  { subst body. rewrite !len_app. unfold len. simpl. lia. }
  assert (Hb : len body = 9 + len data).
  { subst body. rewrite len_app. unfold len. simpl. lia. }
  pose proof (len_nonneg data) as Hd.
  rewrite Hlen.
  destruct (11 + len data <? 11) eqn:E1; [lia|clear E1].
  assert (E8 : at_ (body ++ [c0; c1]) 8 = len data) by reflexivity.
  rewrite E8.
  destruct (11 + len data =? len data + 11) eqn:E2; [clear E2|lia].
  cbn [negb].
  replace (Z.to_nat (11 + len data - 2)) with (length body)
    by (unfold len in *; lia).
  replace (11 + len data - 2) with (len body + 0) by lia.
  replace (11 + len data - 1) with (len body + 1) by lia.
  rewrite !at_app_tail by lia.
  rewrite take_app_length.
  change (at_ [c0; c1] 0) with c0. change (at_ [c0; c1] 1) with c1.
  change (at_ (body ++ [c0; c1]) 0) with h0.
  change (at_ (body ++ [c0; c1]) 1) with h1.
  change (at_ (body ++ [c0; c1]) 2) with s0.
  change (at_ (body ++ [c0; c1]) 3) with s1.
  change (at_ (body ++ [c0; c1]) 4) with d0.
  change (at_ (body ++ [c0; c1]) 5) with d1.
  change (at_ (body ++ [c0; c1]) 6) with cc.
  change (at_ (body ++ [c0; c1]) 7) with fc.
  change (drop 9 (body ++ [c0; c1])) with (data ++ [c0; c1]).
  replace (Z.to_nat (len data)) with (length data) by (unfold len; lia).
  rewrite take_app_length. reflexivity.
Qed.

(** ** Encoding *)

(** C3.  [Bytes] fails if and only if the payload is longer than 255 bytes,
    and then with [ErrMaxDataSizeExceeded] (the PayloadTooLarge error);
    otherwise it returns header, source, destination, control code,
    function code, length, payload and checksum, the two-byte fields most
    significant byte first and the checksum taken over all the bytes before
    it, so that the frame is 11 bytes longer than the payload. *)
Theorem Bytes_frame_layout (p : Packet) :
  wf_packet p ->
  (forall e : error,
      Bytes p = Err e <->
      255 < len (Data p) /\ e = Sentinel ErrMaxDataSizeExceeded) /\
  kind_of (Sentinel ErrMaxDataSizeExceeded) = Some PayloadTooLarge /\
  (len (Data p) <= 255 ->
   Bytes p = Ok (frame_layout p) /\
   len (frame_layout p) = 11 + len (Data p)).
Proof.
  intros (Hh & Hs & Hd & Hc & Hf & Hdata).
  rewrite Bytes_checked. split; [|split; [reflexivity|]].
  - intros e. destruct (255 <? len (Data p)) eqn:E.
    + apply Z.ltb_lt in E. split.
      * intros [= <-]. auto.
      * intros [_ ->]. reflexivity.
    + apply Z.ltb_ge in E. split; [discriminate|lia].
  - intros Hle. destruct (255 <? len (Data p)) eqn:E; [lia|]. split.
    + cbn zeta. unfold frame_layout.
      rewrite !bytesFromUint16_be16_bytes by (auto using checksum_range).
      rewrite checksum_byte_sum, uint8_id
        by (pose proof (len_nonneg (Data p)); unfold is_byte; lia).
      reflexivity.
    + unfold frame_layout, be16_bytes. rewrite !len_app.
      unfold len. simpl. lia.
Qed.

Lemma Bytes_frame_layout_witness :
  Bytes sample_packet
  = Ok [0xAA; 0x55; 0; 0; 0; 0; 0x10; 0x01; 4; 0x31; 0x32; 0x33; 0x0A; 1; 0xB4].
Proof.
  assert (W : wf_packet sample_packet).
  { in_range. }
  destruct (Bytes_frame_layout sample_packet W) as (_ & _ & H).
  destruct H as [H _]; [vm_compute; discriminate|].
  rewrite H. reflexivity.
Defined.

(** ** Round trip *)

(** C1, as stated, fails: a packet whose header is not 0xAA55 is encoded by
    [Bytes] and refused by [ParsePacket]. *)
Lemma roundtrip_fails_on_foreign_header :
  let p := {| Header := 0x1234; Source := 0; Destination := 0;
              ControlCode := 0x10; FunctionCode := 0x00; Data := [] |} in
  wf_packet p /\ len (Data p) <= 255 /\ ~ roundtrip p.
Proof.
  intros p. split; [|split].
  - in_range.
  - vm_compute. discriminate.
  - intros (bs & q & Hb & Hq & _).
    vm_compute in Hb. injection Hb as <-.
    vm_compute in Hq. discriminate.
Qed.

(** C1, amended.  For every packet whose header is 0xAA55 and whose payload
    has at most 255 bytes, [Bytes] succeeds, [ParsePacket] succeeds on its
    result, and the packet that comes back has the payload, header, source,
    destination, control code and function code of the original. *)
Theorem Bytes_ParsePacket_roundtrip (p : Packet) :
  wf_packet p -> Header p = 0xAA55 -> len (Data p) <= 255 -> roundtrip p.
Proof.
  intros (Hh & Hs & Hd & Hc & Hf & Hdata) Hhdr Hle. unfold roundtrip.
  rewrite Bytes_checked. destruct (255 <? len (Data p)) eqn:E; [lia|].
  cbn zeta. eexists _, _. split; [reflexivity|].
  unfold bytesFromUint16.
  rewrite (uint8_id (len (Data p)))
    by (pose proof (len_nonneg (Data p)); unfold is_byte; lia).
  cbn [app].
  match goal with
  | |- context [checksum ?b] => set (body := b)
  end.
  pose proof (ParsePacket_frame
                (uint8 (Header p / 256)) (uint8 (Header p mod 256))
                (uint8 (Source p / 256)) (uint8 (Source p mod 256))
                (uint8 (Destination p / 256)) (uint8 (Destination p mod 256))
                (ControlCode p) (FunctionCode p) (Data p)
                (uint8 (checksum body / 256)) (uint8 (checksum body mod 256)))
    as HP.
  cbn zeta in HP. cbn [app] in HP. fold body in HP. rewrite HP. clear HP.
  rewrite !uint16FromBytes_bytesFromUint16 by (auto using checksum_range).
  rewrite Z.eqb_refl, Hhdr. cbn [negb Z.eqb Pos.eqb].
  split; [reflexivity|]. cbn. auto 10.
Qed.

Lemma Bytes_ParsePacket_roundtrip_witness : roundtrip sample_packet.
Proof.
  apply Bytes_ParsePacket_roundtrip.
  - in_range.
  - reflexivity.
  - vm_compute. discriminate.
Defined.

(** ** Decoding *)

(** C2.  [ParsePacket] makes its four checks in the order too short, length
    mismatch, checksum mismatch, bad header; the first check that fails
    gives the error, and an error comes without a packet.  When none fails
    the packet is returned. *)
Theorem ParsePacket_first_failing_check (res : list byte) :
  Forall is_byte res ->
  match first_failing_check res with
  | Some k => exists e : error, fails_with (ParsePacket res) e k
  | None => exists p : Packet, ParsePacket res = Ok p
  end.
Proof.
  intros Hres. rewrite ParsePacket_checked. unfold first_failing_check.
  destruct (len res <? 11) eqn:E1.
  { eexists. split; reflexivity. }
  apply Z.ltb_ge in E1.
  rewrite (Z.eqb_sym (at_ res 8 + 11)).
  destruct (len res =? at_ res 8 + 11) eqn:E2; cbn [negb].
  2:{ eexists. split; reflexivity. }
  rewrite checksum_byte_sum.
  rewrite !uint16FromBytes_be16 by (apply Forall_at; [assumption|lia]).
  replace (Z.to_nat (len res - 2)) with (length res - 2)%nat
    by (unfold len; lia).
  destruct (_ =? be16 (at_ res (len res - 2)) _) eqn:E3; cbn [negb].
  2:{ eexists. split; reflexivity. }
  destruct (be16 (at_ res 0) (at_ res 1) =? 43605) eqn:E4; cbn [negb].
  2:{ eexists. split; reflexivity. }
  eexists. reflexivity.
Qed.

Lemma ParsePacket_first_failing_check_witness :
  exists e : error,
    fails_with
      (ParsePacket [0xAA; 0x55; 0; 0; 0; 0; 0x10; 0x81; 1; 0x06; 0x01; 0x98])
      e ChecksumMismatch.
Proof.
  apply (ParsePacket_first_failing_check
           [0xAA; 0x55; 0; 0; 0; 0; 0x10; 0x81; 1; 0x06; 0x01; 0x98]).
  in_range.
Defined.

(** * The response parsers *)

Lemma status_checks (p : Packet) (response_code : byte) (m : message)
    (r : outcome unit) :
  kind_of (Wrap ErrUnexpectedFunctionCode m) = Some UnexpectedFunctionCode ->
  r = (if negb (ControlCode p =? ControlCodeRegister) then
         Err (Wrap ErrUnexpectedControlCode
                (MsgExpectedGot 0x10 (ControlCode p)))
       else if negb (FunctionCode p =? response_code) then
         Err (Wrap ErrUnexpectedFunctionCode m)
       else if negb (len (Data p) =? 1) then
         Err (Wrap ErrInvalidBody (MsgExpectedDataLength1 (len (Data p))))
       else
         d0 <- index (Data p) 0 ;;
         if d0 =? StatusNOACK then Err (Errorf MsgGotNOACK) else
         d0 <- index (Data p) 0 ;;
         if negb (d0 =? StatusACK) then
           Err (Wrap ErrInvalidBody
                  (MsgExpectedACKorNOACK StatusACK StatusNOACK d0))
         else Ok tt) ->
  agrees r (status_verdict response_code p).
Proof.
  intros Hm ->. unfold status_verdict, ControlCodeRegister.
  destruct (ControlCode p =? 16); cbn [negb].
  2:{ eexists. split; reflexivity. }
  destruct (FunctionCode p =? response_code); cbn [negb].
  2:{ eexists. split; [reflexivity|exact Hm]. }
  destruct (Data p) as [|b [|b' l]].
  - eexists. split; reflexivity.
  - change (len [b] =? 1) with true. cbn [negb].
    change (index [b] 0) with (Ok b). cbn [bind].
    unfold StatusNOACK, StatusACK.
    destruct (b =? 6) eqn:E6.
    + apply Z.eqb_eq in E6. subst b. reflexivity.
    + destruct (b =? 21); cbn [negb]; eexists; split; reflexivity.
  - destruct (len (b :: b' :: l) =? 1) eqn:E.
    + rewrite !len_cons in E. pose proof (len_nonneg l). lia.
    + eexists. split; reflexivity.
Qed.

(** C4.  On a response that decodes to a frame, each of the two status
    parsers reports a control code other than 0x10 as UnexpectedControlCode,
    else a function code other than its response code (0x81 for
    registration, 0x82 for removal) as UnexpectedFunctionCode, else a
    payload that is not exactly one byte as MalformedStatus, else the
    status byte 0x15 as DeviceRejected and a status byte other than 0x06 as
    MalformedStatus; on the status byte 0x06 it returns no error. *)
Theorem status_response_parsers (body : list byte) (p : Packet) :
  ParsePacket body = Ok p ->
  agrees (ParseRegisterInverterResponse body) (status_verdict 0x81 p) /\
  agrees (ParseUnregisterInverterResponse body) (status_verdict 0x82 p).
Proof.
  intros Hp. split.
  - apply status_checks with (m := MsgExpectedGot 0x81 (FunctionCode p));
      [reflexivity|].
    unfold ParseRegisterInverterResponse. rewrite Hp. reflexivity.
  - apply status_checks with (m := MsgExpectedGot 0x81 (FunctionCode p));
      [reflexivity|].
    unfold ParseUnregisterInverterResponse. rewrite Hp. reflexivity.
Qed.

Lemma status_response_parsers_witness :
  ParseRegisterInverterResponse ack_frame = Ok tt /\
  exists e : error,
    fails_with (ParseUnregisterInverterResponse ack_frame) e
               UnexpectedFunctionCode.
Proof.
  apply (status_response_parsers ack_frame
           {| Header := 0xAA55; Source := 0; Destination := 0;
              ControlCode := 0x10; FunctionCode := 0x81; Data := [0x06] |}).
  reflexivity.
Defined.

(** * The telemetry normaliser *)

Lemma land_pow2_eqb (e k : Z) :
  0 <= k -> (Z.land e (2 ^ k) =? 2 ^ k) = Z.testbit e k.
Proof.
  intros Hk. destruct (Z.testbit e k) eqn:T.
  - apply Z.eqb_eq. apply Z.bits_inj'. intros n Hn.
    rewrite Z.land_spec, Z.pow2_bits_eqb by lia.
    destruct (Z.eqb_spec k n) as [<-|_].
    + rewrite T. reflexivity.
    + apply andb_false_r.
  - apply Z.eqb_neq. intros E.
    assert (Z.testbit (Z.land e (2 ^ k)) k = true) as B
      by (rewrite E; apply Z.pow2_bits_true; lia).
    rewrite Z.land_spec, T in B. discriminate.
Qed.

Lemma append_if_testbit (e k mask : Z) (acc : list string) (name : string) :
  mask = 2 ^ k -> 0 <= k ->
  append_if (Z.land e mask) mask acc name
  = acc ++ (if Z.testbit e k then [name] else []).
Proof.
  intros -> Hk. unfold append_if. rewrite land_pow2_eqb by assumption.
  destruct (Z.testbit e k); [reflexivity|]. symmetry. apply app_nil_r.
Qed.

(** What the chain of tests computes: the statement for entry [k] of the
    table tests bit [31 - k] of the code. *)
Lemma NormalizeInfoResponse_ErrMessage (r : NormalInfoResponse) :
  Normalized.ErrMessage (NormalizeInfoResponse r)
  = flat_map (fun k => if Z.testbit (ErrMessage r) (31 - Z.of_nat k)
                       then [fault_name k] else [])
             (seq 0 32).
Proof.
  unfold NormalizeInfoResponse. cbn [Normalized.ErrMessage]. cbn zeta.
  repeat match goal with
         | |- context [append_if (Z.land ?e ?m) ?m ?acc ?name] =>
           let v := eval compute in m in
           let k := eval compute in (Z.log2 v) in
           rewrite (append_if_testbit e k m acc name) by (reflexivity || lia)
         end.
  set (tb := Z.testbit (ErrMessage r)). clearbody tb.
  cbn. rewrite <- ?app_assoc, ?app_nil_r. reflexivity.
Qed.

(** C5, at the failing input.  On the error message code 1, whose only set
    bit is bit 0, [NormalizeInfoResponse] gives the name BIT31, where the
    table documented with the field names bit 0 TzProtectFault. *)
Theorem NormalizeInfoResponse_names_bit0_BIT31 :
  Normalized.ErrMessage (NormalizeInfoResponse (info_with 0 1)) = ["BIT31"] /\
  fault_names_spec 1 = ["TzProtectFault"].
Proof. split; reflexivity. Qed.

(** C6, as stated, fails: the mode code 7 becomes the empty string. *)
Lemma NormalizeInfoResponse_mode_7_empty :
  7 <= Mode (info_with 7 0) <= 65535 /\
  Normalized.Mode (NormalizeInfoResponse (info_with 7 0)) = "".
Proof. split; [simpl; lia|reflexivity]. Qed.

(** C6, amended.  [NormalizeInfoResponse] maps the mode codes 0 to 6 to
    Wait, Check, Normal, Fault, Permanent Fault, Update and Selftest, and
    every other code, 7 to 65535 among them, to the empty string. *)
Theorem NormalizeInfoResponse_Mode (r : NormalInfoResponse) :
  Normalized.Mode (NormalizeInfoResponse r) = mode_name (Mode r) /\
  (7 <= Mode r <= 65535 -> Normalized.Mode (NormalizeInfoResponse r) = "").
Proof.
  assert (E : Normalized.Mode (NormalizeInfoResponse r) = mode_name (Mode r)).
  { unfold NormalizeInfoResponse. cbn [Normalized.Mode]. cbn zeta.
    unfold map_index, modes, mode_name.
    repeat match goal with
           | |- context [?m =? ?k] =>
             destruct (Z.eqb_spec m k) as [->|?]; [reflexivity|]
           end.
    rewrite !lookup_insert_ne by congruence. rewrite lookup_empty.
    reflexivity. }
  split; [exact E|].
  intros Hm. rewrite E. unfold mode_name.
  repeat match goal with
         | |- context [?m =? ?k] => destruct (Z.eqb_spec m k); [lia|]
         end.
  reflexivity.
Qed.

(** C7.  A record with mode code 2 is normalised to the mode name Normal;
    a record with the error message code 0x88442211 (bits 31, 27, 22, 18,
    13, 9, 4 and 0) to a list of exactly 8 names, TzProtectFault,
    PLLLostFault and BIT31 among them. *)
Theorem NormalizeInfoResponse_example (r : NormalInfoResponse) :
  (Mode r = 2 -> Normalized.Mode (NormalizeInfoResponse r) = "Normal") /\
  (ErrMessage r = 0x88442211 ->
   let names := Normalized.ErrMessage (NormalizeInfoResponse r) in
   names = ["TzProtectFault"; "PLLLostFault"; "ResidualCurrentFault";
            "TemperatureOverFault"; "BIT18"; "SampleConsistenceFault";
            "BIT27"; "BIT31"] /\
   length names = 8%nat /\
   In "TzProtectFault" names /\ In "PLLLostFault" names /\ In "BIT31" names).
Proof.
  split.
  - intros Hm. unfold NormalizeInfoResponse. cbn [Normalized.Mode]. cbn zeta.
    rewrite Hm. reflexivity.
  - intros He. cbn zeta.
    assert (E : Normalized.ErrMessage (NormalizeInfoResponse r)
                = ["TzProtectFault"; "PLLLostFault"; "ResidualCurrentFault";
                   "TemperatureOverFault"; "BIT18"; "SampleConsistenceFault";
                   "BIT27"; "BIT31"]).
    { rewrite NormalizeInfoResponse_ErrMessage, He. vm_compute. reflexivity. }
    rewrite E. split; [reflexivity|]. split; [reflexivity|].
    split; [left; reflexivity|]. split; [right; left; reflexivity|].
    do 7 right. left. reflexivity.
Qed.

Lemma NormalizeInfoResponse_example_witness :
  Normalized.Mode (NormalizeInfoResponse (info_with 2 0x88442211)) = "Normal" /\
  length (Normalized.ErrMessage (NormalizeInfoResponse (info_with 2 0x88442211)))
  = 8%nat.
Proof.
  pose proof (NormalizeInfoResponse_example (info_with 2 0x88442211))
    as [Hm He].
  split.
  - exact (Hm eq_refl).
  - destruct (He eq_refl) as (_ & Hlen & _). exact Hlen.
Defined.

(** * Parsing stays in bounds *)

Lemma uint16_at_in_range (data : list byte) (lo hi : Z) :
  0 <= lo -> lo + 2 <= hi -> hi <= len data ->
  uint16_at data lo hi = Ok (uint16FromBytes (at_ data lo, at_ data (lo + 1))).
Proof.
  intros H1 H2 H3. unfold uint16_at.
  rewrite slice_in_range by lia. cbn [bind].
  rewrite array2_slice by lia. reflexivity.
Qed.

Lemma uint32_at_in_range (data : list byte) (lo hi : Z) :
  0 <= lo -> lo + 4 <= hi -> hi <= len data ->
  uint32_at data lo hi
  = Ok (uint32FromBytes (at_ data lo, at_ data (lo + 1),
                         at_ data (lo + 2), at_ data (lo + 3))).
Proof.
  intros H1 H2 H3. unfold uint32_at.
  rewrite slice_in_range by lia. cbn [bind].
  rewrite array4_slice by lia. reflexivity.
Qed.

Lemma bind_Ok {A B : Type} (a : A) (k : A -> outcome B) : bind (Ok a) k = k a.
Proof. reflexivity. Qed.

Lemma uint16_at_within (data : list byte) (lo hi n : Z) :
  len data = n ->
  (0 <=? lo) && (lo + 2 <=? hi) && (hi <=? n) = true ->
  uint16_at data lo hi = Ok (uint16FromBytes (at_ data lo, at_ data (lo + 1))).
Proof. intros <- Hb. apply uint16_at_in_range; lia. Qed.

Lemma uint32_at_within (data : list byte) (lo hi n : Z) :
  len data = n ->
  (0 <=? lo) && (lo + 4 <=? hi) && (hi <=? n) = true ->
  uint32_at data lo hi
  = Ok (uint32FromBytes (at_ data lo, at_ data (lo + 1),
                         at_ data (lo + 2), at_ data (lo + 3))).
Proof. intros <- Hb. apply uint32_at_in_range; lia. Qed.

(** [NormalInfoResponseFromData] returns a record exactly on the payloads of
    50 bytes, where each of its 21 slice expressions is in range. *)
Lemma NormalInfoResponseFromData_total (data : list byte) :
  (len data = 50 /\ exists r, NormalInfoResponseFromData data = Ok r) \/
  (len data <> 50 /\
   NormalInfoResponseFromData data = Err (Sentinel ErrInvalidBody)).
Proof.
  destruct (Z.eq_dec (len data) 50) as [E|E].
  - left. split; [exact E|]. unfold NormalInfoResponseFromData.
    rewrite E. change (negb (50 =? 50)) with false. cbv iota.
    repeat match goal with
           | |- context [uint16_at data ?lo ?hi] =>
             rewrite (uint16_at_within data lo hi 50 E eq_refl), bind_Ok;
             cbv beta
           | |- context [uint32_at data ?lo ?hi] =>
             rewrite (uint32_at_within data lo hi 50 E eq_refl), bind_Ok;
             cbv beta
           end.
    eexists. reflexivity.
  - right. split; [exact E|]. unfold NormalInfoResponseFromData.
    apply Z.eqb_neq in E. rewrite E. reflexivity.
Qed.

(** [InverterInfoResponseFromData] returns a record exactly on the payloads
    of at least 67 bytes, where its index and its six slice expressions are
    in range. *)
Lemma InverterInfoResponseFromData_total (data : list byte) :
  (67 <= len data /\ exists r, InverterInfoResponseFromData data = Ok r) \/
  (len data < 67 /\
   InverterInfoResponseFromData data
   = Err (Wrap ErrInvalidBody (MsgExpectedLength67 (len data)))).
Proof.
  unfold InverterInfoResponseFromData.
  destruct (len data <? 67) eqn:E.
  - apply Z.ltb_lt in E. right. split; [exact E|reflexivity].
  - apply Z.ltb_ge in E. left. split; [exact E|].
    rewrite index_in_range by lia. cbn [bind].
    repeat (rewrite slice_in_range by lia; cbn [bind]).
    eexists. reflexivity.
Qed.

Lemma ParsePacket_no_panic (res : list byte) : ParsePacket res <> Panic.
Proof.
  rewrite ParsePacket_checked.
  repeat match goal with
         | |- context [if ?b then _ else _] => destruct b
         end; discriminate.
Qed.

(** C10.  On every input [ParsePacket], [NormalInfoResponseFromData] and
    [InverterInfoResponseFromData] return a value or an error: no index
    expression, slice expression or conversion to an array in them is
    evaluated out of range. *)
Theorem parsing_never_panics (input : list byte) :
  ParsePacket input <> Panic /\
  NormalInfoResponseFromData input <> Panic /\
  InverterInfoResponseFromData input <> Panic.
Proof.
  split; [|split].
  - apply ParsePacket_no_panic.
  - destruct (NormalInfoResponseFromData_total input)
      as [(_ & r & ->)|(_ & ->)]; discriminate.
  - destruct (InverterInfoResponseFromData_total input)
      as [(_ & r & ->)|(_ & ->)]; discriminate.
Qed.

(** * The client *)

Section ClientProperties.
Context {C : Type} `{Connection C}.

Lemma RegisterInverter_exchange (c : Client C) (inv : Inverter)
    (address : byte) :
  RegisterInverter c (Some inv) address =
  let '(c', r) := exchange c (RegisterInverterRequest (Serial inv) address) in
  match r with
  | Panic => (c', Some inv, Panic)
  | Err e => (c', Some inv, Err e)
  | Ok resp =>
    match ParseRegisterInverterResponse resp with
    | Panic => (c', Some inv, Panic)
    | Err e => (c', Some inv, Err e)
    | Ok _ =>
      (c', Some {| Serial := Serial inv; Address := address |}, Ok tt)
    end
  end.
Proof.
  unfold RegisterInverter, exchange.
  destruct (conn_Flush (Conn c)) as [conn [e|]]; [reflexivity|].
  destruct (Bytes _) as [req|e|]; [|reflexivity..].
  destruct (Send _ req) as [c1 [e|]]; [reflexivity|].
  destruct (Read c1) as [c2 [resp [e|]]]; reflexivity.
Qed.

Lemma UnregisterInverter_exchange (c : Client C) (inv : Inverter) :
  UnregisterInverter c (Some inv) =
  let '(c', r) :=
    exchange c (UnregisterInverterRequest (Serial inv) (Address inv)) in
  match r with
  | Panic => (c', Some inv, Panic)
  | Err e => (c', Some inv, Err e)
  | Ok resp =>
    match ParseUnregisterInverterResponse resp with
    | Panic => (c', Some inv, Panic)
    | Err e => (c', Some inv, Err e)
    | Ok _ => (c', Some {| Serial := Serial inv; Address := 0 |}, Ok tt)
    end
  end.
Proof.
  unfold UnregisterInverter, exchange.
  destruct (conn_Flush (Conn c)) as [conn [e|]]; [reflexivity|].
  destruct (Bytes _) as [req|e|]; [|reflexivity..].
  destruct (Send _ req) as [c1 [e|]]; [reflexivity|].
  destruct (Read c1) as [c2 [resp [e|]]]; reflexivity.
Qed.

Lemma GetInfo_exchange (c : Client C) (inv : Inverter) :
  GetInfo c (Some inv) =
  let '(c', r) := exchange c (NormalInfoRequest (Address inv)) in
  match r with
  | Panic => (c', Panic)
  | Err e => (c', Err e)
  | Ok resp => (c', ParseNormalInfoResponse resp)
  end.
Proof.
  unfold GetInfo, exchange.
  destruct (conn_Flush (Conn c)) as [conn [e|]]; [reflexivity|].
  destruct (Bytes _) as [req|e|]; [|reflexivity..].
  destruct (Send _ req) as [c1 [e|]]; [reflexivity|].
  destruct (Read c1) as [c2 [resp [e|]]]; reflexivity.
Qed.

Lemma GetInverterInfo_exchange (c : Client C) (inv : Inverter) :
  GetInverterInfo c (Some inv) =
  let '(c', r) := exchange c (InverterInfoRequest (Address inv)) in
  match r with
  | Panic => (c', Panic)
  | Err e => (c', Err e)
  | Ok resp => (c', ParseInverterInfoResponse resp)
  end.
Proof.
  unfold GetInverterInfo, exchange.
  destruct (conn_Flush (Conn c)) as [conn [e|]]; [reflexivity|].
  destruct (Bytes _) as [req|e|]; [|reflexivity..].
  destruct (Send _ req) as [c1 [e|]]; [reflexivity|].
  destruct (Read c1) as [c2 [resp [e|]]]; reflexivity.
Qed.

Lemma FindUnregisteredInverter_exchange (c : Client C) :
  FindUnregisteredInverter c =
  let '(c', r) := exchange c UnregisteredInverterRequest in
  match r with
  | Panic => (c', Panic)
  | Err e => (c', Err e)
  | Ok resp =>
    if len resp =? 0 then (c', Err (Sentinel ErrNoInverter)) else
    match ParseUnregisteredInverterResponse resp with
    | Panic => (c', Panic)
    | Err e => (c', Err e)
    | Ok r =>
      (c', Ok {| Serial := UnregisteredInverterResponse.Serial r;
                 Address := 0 |})
    end
  end.
Proof.
  unfold FindUnregisteredInverter, exchange.
  destruct (conn_Flush (Conn c)) as [conn [e|]]; [reflexivity|].
  destruct (Bytes _) as [req|e|]; [|reflexivity..].
  destruct (Send _ req) as [c1 [e|]]; [reflexivity|].
  destruct (Read c1) as [c2 [resp [e|]]]; reflexivity.
Qed.

Lemma Bytes_no_panic (p : Packet) : Bytes p <> Panic.
Proof. rewrite Bytes_checked. destruct (_ <? _); discriminate. Qed.

Lemma exchange_no_panic (c : Client C) (p : Packet) :
  snd (exchange c p) <> Panic.
Proof.
  unfold exchange. pose proof (Bytes_no_panic p) as HB.
  destruct (conn_Flush (Conn c)) as [conn [e|]]; [discriminate|].
  destruct (Bytes p) as [req|e|]; [|discriminate|congruence].
  destruct (Send _ req) as [c1 [e|]]; [discriminate|].
  destruct (Read c1) as [c2 [resp [e|]]]; discriminate.
Qed.

Lemma agrees_cases (r : outcome unit) (v : option error_kind) :
  agrees r v ->
  (r = Ok tt /\ v = None) \/ (is_Err r /\ v <> None).
Proof.
  destruct v as [k|]; simpl.
  - intros (e & -> & _). right. split; [exact I|discriminate].
  - intros ->. left. auto.
Qed.

Lemma ParseRegisterInverterResponse_cases (resp : list byte) :
  (ParseRegisterInverterResponse resp = Ok tt /\
   exists p, ParsePacket resp = Ok p /\ status_verdict 0x81 p = None) \/
  (is_Err (ParseRegisterInverterResponse resp) /\
   forall p, ParsePacket resp = Ok p -> status_verdict 0x81 p <> None).
Proof.
  pose proof (ParsePacket_no_panic resp) as HP.
  destruct (ParsePacket resp) as [p|e|] eqn:Ep; [| |congruence].
  - assert (A : agrees (ParseRegisterInverterResponse resp)
                       (status_verdict 0x81 p)).
    { apply status_checks with (m := MsgExpectedGot 0x81 (FunctionCode p));
        [reflexivity|].
      unfold ParseRegisterInverterResponse. rewrite Ep. reflexivity. }
    apply agrees_cases in A. destruct A as [[A1 A2]|[A1 A2]].
    + left. eauto.
    + right. split; [exact A1|]. intros q [= <-]. exact A2.
  - right. unfold ParseRegisterInverterResponse. rewrite Ep.
    split; [exact I|discriminate].
Qed.

Lemma ParseUnregisterInverterResponse_cases (resp : list byte) :
  (ParseUnregisterInverterResponse resp = Ok tt /\
   exists p, ParsePacket resp = Ok p /\ status_verdict 0x82 p = None) \/
  (is_Err (ParseUnregisterInverterResponse resp) /\
   forall p, ParsePacket resp = Ok p -> status_verdict 0x82 p <> None).
Proof.
  pose proof (ParsePacket_no_panic resp) as HP.
  destruct (ParsePacket resp) as [p|e|] eqn:Ep; [| |congruence].
  - assert (A : agrees (ParseUnregisterInverterResponse resp)
                       (status_verdict 0x82 p)).
    { apply status_checks with (m := MsgExpectedGot 0x81 (FunctionCode p));
        [reflexivity|].
      unfold ParseUnregisterInverterResponse. rewrite Ep. reflexivity. }
    apply agrees_cases in A. destruct A as [[A1 A2]|[A1 A2]].
    + left. eauto.
    + right. split; [exact A1|]. intros q [= <-]. exact A2.
  - right. unfold ParseUnregisterInverterResponse. rewrite Ep.
    split; [exact I|discriminate].
Qed.

(** C8.  [RegisterInverter] returns no error exactly when its exchange
    gives a response that decodes to a frame with control code 0x10,
    function code 0x81 and the single status byte 0x06, and then the
    inverter has the requested address and its serial; in every other
    case it returns an error and the inverter is as it was.  The same
    holds of [UnregisterInverter], with function code 0x82 and the
    address 0. *)
Theorem inverter_address_lifecycle (c : Client C) (inv : Inverter)
    (address : byte) :
  (let '(_, inverter', r) := RegisterInverter c (Some inv) address in
   (r = Ok tt <->
    exists resp p,
      snd (exchange c (RegisterInverterRequest (Serial inv) address))
      = Ok resp /\
      ParsePacket resp = Ok p /\ status_verdict 0x81 p = None) /\
   (r = Ok tt ->
    inverter' = Some {| Serial := Serial inv; Address := address |}) /\
   (r <> Ok tt -> is_Err r /\ inverter' = Some inv)) /\
  (let '(_, inverter', r) := UnregisterInverter c (Some inv) in
   (r = Ok tt <->
    exists resp p,
      snd (exchange c (UnregisterInverterRequest (Serial inv) (Address inv)))
      = Ok resp /\
      ParsePacket resp = Ok p /\ status_verdict 0x82 p = None) /\
   (r = Ok tt -> inverter' = Some {| Serial := Serial inv; Address := 0 |}) /\
   (r <> Ok tt -> is_Err r /\ inverter' = Some inv)).
Proof.
  split.
  - rewrite RegisterInverter_exchange.
    pose proof (exchange_no_panic c
                  (RegisterInverterRequest (Serial inv) address)) as NP.
    destruct (exchange c _) as [c' [resp|e|]]; simpl in *; [| |congruence].
    + destruct (ParseRegisterInverterResponse_cases resp)
        as [[E (p & Hp & Hv)]|[E Hv]].
      * rewrite E. split; [|split]; [|reflexivity|congruence].
        split; [eauto|reflexivity].
      * destruct (ParseRegisterInverterResponse resp) as [[]|e|];
          simpl in E; try contradiction.
        split; [|split]; [|discriminate|auto].
        split; [discriminate|].
        intros (resp' & p & [= <-] & Hp & Hn). exfalso. eapply Hv; eauto.
    + split; [|split]; [|discriminate|auto].
      split; [discriminate|]. intros (resp & p & Hr & _). discriminate.
  - rewrite UnregisterInverter_exchange.
    pose proof (exchange_no_panic c
                  (UnregisterInverterRequest (Serial inv) (Address inv)))
      as NP.
    destruct (exchange c _) as [c' [resp|e|]]; simpl in *; [| |congruence].
    + destruct (ParseUnregisterInverterResponse_cases resp)
        as [[E (p & Hp & Hv)]|[E Hv]].
      * rewrite E. split; [|split]; [|reflexivity|congruence].
        split; [eauto|reflexivity].
      * destruct (ParseUnregisterInverterResponse resp) as [[]|e|];
          simpl in E; try contradiction.
        split; [|split]; [|discriminate|auto].
        split; [discriminate|].
        intros (resp' & p & [= <-] & Hp & Hn). exfalso. eapply Hv; eauto.
    + split; [|split]; [|discriminate|auto].
      split; [discriminate|]. intros (resp & p & Hr & _). discriminate.
Qed.

(** C9.  When the read of the exchange returns zero bytes,
    [FindUnregisteredInverter] returns [ErrNoInverter], which is not the
    error that decoding zero bytes gives and does not wrap
    [ErrInvalidBody]; [RegisterInverter], [UnregisterInverter], [GetInfo]
    and [GetInverterInfo] return an error, the one of a frame that is too
    short, and the first two leave the inverter as it was. *)
Theorem zero_byte_read (c : Client C) (inv : Inverter) (address : byte) :
  (reads_nothing c UnregisteredInverterRequest ->
   snd (FindUnregisteredInverter c) = Err (Sentinel ErrNoInverter)) /\
  kind_of (Sentinel ErrNoInverter) = Some NoDeviceResponded /\
  errors_Is (Sentinel ErrNoInverter) ErrInvalidBody = false /\
  fails_with (ParseUnregisteredInverterResponse [])
             (Wrap ErrInvalidBody (MsgMinimumPacketSize 0)) FrameTooShort /\
  (reads_nothing c (RegisterInverterRequest (Serial inv) address) ->
   fails_with (snd (RegisterInverter c (Some inv) address))
              (Wrap ErrInvalidBody (MsgMinimumPacketSize 0)) FrameTooShort /\
   snd (fst (RegisterInverter c (Some inv) address)) = Some inv) /\
  (reads_nothing c (UnregisterInverterRequest (Serial inv) (Address inv)) ->
   fails_with (snd (UnregisterInverter c (Some inv)))
              (Wrap ErrInvalidBody (MsgMinimumPacketSize 0)) FrameTooShort /\
   snd (fst (UnregisterInverter c (Some inv))) = Some inv) /\
  (reads_nothing c (NormalInfoRequest (Address inv)) ->
   fails_with (snd (GetInfo c (Some inv)))
              (Wrap ErrInvalidBody (MsgMinimumPacketSize 0)) FrameTooShort) /\
  (reads_nothing c (InverterInfoRequest (Address inv)) ->
   fails_with (snd (GetInverterInfo c (Some inv)))
              (Wrap ErrInvalidBody (MsgMinimumPacketSize 0)) FrameTooShort).
Proof.
  unfold reads_nothing.
  rewrite FindUnregisteredInverter_exchange, RegisterInverter_exchange,
    UnregisterInverter_exchange, GetInfo_exchange, GetInverterInfo_exchange.
  split; [|split; [reflexivity|split; [reflexivity|split;
    [split; reflexivity|]]]].
  - destruct (exchange c _) as [c' r]. simpl. intros ->. reflexivity.
  - split; [|split; [|split]].
    + destruct (exchange c _) as [c' r]. simpl. intros ->.
      split; [split|]; reflexivity.
    + destruct (exchange c _) as [c' r]. simpl. intros ->.
      split; [split|]; reflexivity.
    + destruct (exchange c _) as [c' r]. simpl. intros ->.
      split; reflexivity.
    + destruct (exchange c _) as [c' r]. simpl. intros ->.
      split; reflexivity.
Qed.

End ClientProperties.

(** The client on a silent bus, and on a bus where the device acknowledges
    or refuses a registration. *)
Lemma zero_byte_read_witness :
  let c := NewClientWithConnection (Script.answering []) in
  let inv := {| Serial := [0x31; 0x32; 0x33]; Address := 0 |} in
  snd (FindUnregisteredInverter c) = Err (Sentinel ErrNoInverter) /\
  snd (GetInfo c (Some inv))
  = Err (Wrap ErrInvalidBody (MsgMinimumPacketSize 0)).
Proof.
  intros c inv.
  destruct (zero_byte_read c inv 0x0A) as (HF & _ & _ & _ & _ & _ & HG & _).
  split.
  - apply HF. reflexivity.
  - apply HG. reflexivity.
Defined.

Example RegisterInverter_acknowledged :
  let c := NewClientWithConnection (Script.answering ack_frame) in
  let inv := {| Serial := [0x31; 0x32; 0x33]; Address := 0 |} in
  let '(_, inverter', r) := RegisterInverter c (Some inv) 0x0A in
  r = Ok tt /\
  inverter' = Some {| Serial := [0x31; 0x32; 0x33]; Address := 0x0A |}.
Proof. vm_compute. auto. Qed.

Example RegisterInverter_refused :
  let c := NewClientWithConnection
             (Script.answering
                [0xAA; 0x55; 0; 0; 0; 0; 0x10; 0x81; 1; 0x15; 0x01; 0xA6]) in
  let inv := {| Serial := [0x31; 0x32; 0x33]; Address := 0 |} in
  let '(_, inverter', r) := RegisterInverter c (Some inv) 0x0A in
  r = Err (Errorf MsgGotNOACK) /\ inverter' = Some inv.
Proof. vm_compute. auto. Qed.


(** * Further properties of the byte helpers and the checksum *)

Lemma byte_sum_app (l k : list byte) :
  byte_sum (l ++ k) = byte_sum l + byte_sum k.
Proof.
  induction l as [|x l IH]; simpl; [reflexivity|]. rewrite IH. lia.
Qed.

Lemma byte_sum_Permutation (l k : list byte) :
  Permutation l k -> byte_sum l = byte_sum k.
Proof.
  induction 1 as [|x l k _ IH|x y l|l k m _ IH1 _ IH2]; simpl; lia.
Qed.

(** [checksum] is the sum of the bytes modulo 65536: wrapping after every
    addition gives the same as wrapping once at the end, and the result is
    a 16-bit number whatever the length of the input. *)
Theorem checksum_sum_mod (body : list byte) :
  checksum body = byte_sum body mod 65536 /\ is_uint16 (checksum body).
Proof. split; [apply checksum_byte_sum|apply checksum_range]. Qed.

(** [checksum] does not see the order of the bytes: two bodies that are
    permutations of each other have the same checksum. *)
Theorem checksum_Permutation (l k : list byte) :
  Permutation l k -> checksum l = checksum k.
Proof.
  intros HP. rewrite !checksum_byte_sum.
  rewrite (byte_sum_Permutation l k HP). reflexivity.
Qed.

Lemma checksum_Permutation_witness :
  checksum [0x01; 0x02; 0xFF] = checksum [0xFF; 0x01; 0x02].
Proof.
  apply checksum_Permutation. symmetry.
  apply (Permutation_cons_append [0x01; 0x02] 0xFF).
Defined.

(** The checksum of a concatenation is the wrapped sum of the checksums of
    the parts. *)
Theorem checksum_app (l k : list byte) :
  checksum (l ++ k) = uint16 (checksum l + checksum k).
Proof.
  rewrite !checksum_byte_sum, byte_sum_app. unfold uint16.
  apply Z.add_mod. lia.
Qed.

(** [bytesFromUint16] gives two bytes whatever its argument, and
    [uint16FromBytes] reads them back as the argument taken modulo
    65536. *)
Theorem bytesFromUint16_uint16FromBytes (x : Z) :
  exists b0 b1 : byte,
    bytesFromUint16 x = [b0; b1] /\ is_byte b0 /\ is_byte b1 /\
    uint16FromBytes (b0, b1) = uint16 x.
Proof.
  unfold bytesFromUint16. eexists _, _. split; [reflexivity|].
  assert (B0 : is_byte (uint8 (x / 256)))
    by (unfold is_byte, uint8; apply Z.mod_pos_bound; lia).
  assert (B1 : is_byte (uint8 (x mod 256)))
    by (unfold is_byte, uint8; apply Z.mod_pos_bound; lia).
  split; [exact B0|]. split; [exact B1|].
  rewrite uint16FromBytes_be16 by assumption.
  unfold be16, uint8, uint16.
  rewrite (Z.mod_small (x mod 256) 256) by (apply Z.mod_pos_bound; lia).
  pose proof (Z.div_mod x 256 ltac:(lia)) as D.
  pose proof (Z.div_mod (x / 256) 256 ltac:(lia)) as D'.
  pose proof (Z.mod_pos_bound (x / 256) 256 ltac:(lia)) as R.
  pose proof (Z.mod_pos_bound x 256 ltac:(lia)) as R'.
  apply (Z.mod_unique x 65536 (x / 256 / 256)); lia.
Qed.

Lemma bytesFromUint16_of_bytes (b0 b1 : byte) :
  is_byte b0 -> is_byte b1 ->
  bytesFromUint16 (uint16FromBytes (b0, b1)) = [b0; b1].
Proof.
  intros H0 H1. rewrite uint16FromBytes_be16 by assumption.
  unfold is_byte in *. unfold be16, bytesFromUint16, uint8.
  assert (E0 : (b0 * 256 + b1) / 256 = b0)
    by (symmetry; apply (Z.div_unique _ 256 b0 b1); lia).
  assert (E1 : (b0 * 256 + b1) mod 256 = b1)
    by (symmetry; apply (Z.mod_unique _ 256 b0 b1); lia).
  rewrite E0, E1. rewrite !Z.mod_small by lia. reflexivity.
Qed.

(** On two bytes, [uint16FromBytes] is the big-endian number they spell, a
    16-bit value, and [bytesFromUint16] gives the two bytes back. *)
Theorem uint16FromBytes_bytesFromUint16_bytes (b0 b1 : byte) :
  is_byte b0 -> is_byte b1 ->
  uint16FromBytes (b0, b1) = be16 b0 b1 /\
  is_uint16 (uint16FromBytes (b0, b1)) /\
  bytesFromUint16 (uint16FromBytes (b0, b1)) = [b0; b1].
Proof.
  intros H0 H1. split; [|split].
  - apply uint16FromBytes_be16; assumption.
  - apply uint16_range.
  - apply bytesFromUint16_of_bytes; assumption.
Qed.

Lemma uint16FromBytes_bytesFromUint16_bytes_witness :
  uint16FromBytes (0x04, 0x02) = 0x0402 /\
  bytesFromUint16 (uint16FromBytes (0x04, 0x02)) = [0x04; 0x02].
Proof.
  destruct (uint16FromBytes_bytesFromUint16_bytes 0x04 0x02)
    as (E & _ & R); [in_range..|].
  split; [exact E|exact R].
Defined.

Lemma uint32FromBytes_value (b0 b1 b2 b3 : byte) :
  is_byte b0 -> is_byte b1 -> is_byte b2 -> is_byte b3 ->
  uint32FromBytes (b0, b1, b2, b3) = be32 b0 b1 b2 b3.
Proof.
  unfold is_byte, uint32FromBytes, be32, uint32.
  intros H0 H1 H2 H3.
  rewrite (Z.mod_small b0), (Z.mod_small b1), (Z.mod_small b2),
    (Z.mod_small b3) by lia.
  rewrite (Z.mod_small (b0 * 256)) by lia.
  rewrite (Z.mod_small (b0 * 256 * 256)) by lia.
  rewrite (Z.mod_small (b0 * 256 * 256 * 256)) by lia.
  rewrite (Z.mod_small (b1 * 256)) by lia.
  rewrite (Z.mod_small (b1 * 256 * 256)) by lia.
  rewrite (Z.mod_small (b2 * 256)) by lia.
  rewrite (Z.mod_small (b0 * 256 * 256 * 256 + b1 * 256 * 256)) by lia.
  rewrite (Z.mod_small (b0 * 256 * 256 * 256 + b1 * 256 * 256 + b2 * 256))
    by lia.
  rewrite Z.mod_small by lia. lia.
Qed.

(** On four bytes, [uint32FromBytes] is the big-endian number they spell, a
    32-bit value; no product or sum in it wraps. *)
Theorem uint32FromBytes_be32 (b0 b1 b2 b3 : byte) :
  is_byte b0 -> is_byte b1 -> is_byte b2 -> is_byte b3 ->
  uint32FromBytes (b0, b1, b2, b3) = be32 b0 b1 b2 b3 /\
  is_uint32 (uint32FromBytes (b0, b1, b2, b3)).
Proof.
  intros H0 H1 H2 H3. rewrite uint32FromBytes_value by assumption.
  split; [reflexivity|]. unfold is_byte, is_uint32, be32 in *. lia.
Qed.

Lemma uint32FromBytes_be32_witness :
  uint32FromBytes (0x88, 0x44, 0x22, 0x11) = 0x88442211.
Proof.
  destruct (uint32FromBytes_be32 0x88 0x44 0x22 0x11) as [E _];
    [in_range..|].
  exact E.
Defined.


(** * Further properties of the packet framer *)

Lemma is_byte_uint8 (z : Z) : is_byte (uint8 z).
Proof. unfold is_byte, uint8. apply Z.mod_pos_bound. lia. Qed.

(** What [ParsePacket] returns on the frame [Bytes] makes of a packet. *)
Lemma ParsePacket_of_Bytes (p : Packet) :
  wf_packet p -> len (Data p) <= 255 ->
  exists bs : list byte,
    Bytes p = Ok bs /\
    ParsePacket bs =
    if Header p =? 0xAA55 then Ok p
    else Err (Wrap ErrInvalidBody (MsgHeaderMismatch (Header p))).
Proof.
  intros (Hh & Hs & Hd & Hc & Hf & Hdata) Hle.
  rewrite Bytes_checked. destruct (255 <? len (Data p)) eqn:E; [lia|].
  cbn zeta. eexists. split; [reflexivity|].
  unfold bytesFromUint16.
  rewrite (uint8_id (len (Data p)))
    by (pose proof (len_nonneg (Data p)); unfold is_byte; lia).
  cbn [app].
  match goal with
  | |- context [checksum ?b] => set (body := b)
  end.
  pose proof (ParsePacket_frame
                (uint8 (Header p / 256)) (uint8 (Header p mod 256))
                (uint8 (Source p / 256)) (uint8 (Source p mod 256))
                (uint8 (Destination p / 256)) (uint8 (Destination p mod 256))
                (ControlCode p) (FunctionCode p) (Data p)
                (uint8 (checksum body / 256)) (uint8 (checksum body mod 256)))
    as HP.
  cbn zeta in HP. cbn [app] in HP. fold body in HP. rewrite HP. clear HP.
  rewrite !uint16FromBytes_bytesFromUint16 by (auto using checksum_range).
  rewrite Z.eqb_refl. cbn [negb].
  destruct (Header p =? 43605); cbn [negb]; [|reflexivity].
  destruct p; reflexivity.
Qed.

(** Encoding and decoding give back the very packet: for every packet with
    a payload of at most 255 bytes, [ParsePacket] applied to the result of
    [Bytes] returns the packet itself when its header is 0xAA55, and
    otherwise the header-mismatch error that carries the header; it never
    reports a length or checksum error on a frame [Bytes] made. *)
Theorem Bytes_then_ParsePacket (p : Packet) :
  wf_packet p -> len (Data p) <= 255 ->
  exists bs : list byte,
    Bytes p = Ok bs /\
    (Header p = 0xAA55 -> ParsePacket bs = Ok p) /\
    (Header p <> 0xAA55 ->
     fails_with (ParsePacket bs)
                (Wrap ErrInvalidBody (MsgHeaderMismatch (Header p)))
                BadHeader).
Proof.
  intros W Hle. destruct (ParsePacket_of_Bytes p W Hle) as (bs & Hb & Hp).
  exists bs. split; [exact Hb|]. rewrite Hp. split.
  - intros ->. reflexivity.
  - intros Hne. apply Z.eqb_neq in Hne. rewrite Hne. split; reflexivity.
Qed.

Lemma Bytes_then_ParsePacket_witness :
  exists bs : list byte,
    Bytes sample_packet = Ok bs /\ ParsePacket bs = Ok sample_packet.
Proof.
  destruct (Bytes_then_ParsePacket sample_packet) as (bs & Hb & Hok & _).
  - in_range.
  - vm_compute. discriminate.
  - exists bs. split; [exact Hb|]. apply Hok. reflexivity.
Defined.

Lemma drop_last_two (t : list byte) :
  2 <= len t ->
  drop (length t - 2) t = [at_ t (len t - 2); at_ t (len t - 1)].
Proof.
  intros Ht.
  assert (L : length (drop (length t - 2) t) = 2%nat)
    by (rewrite length_drop; unfold len in Ht; lia).
  pose proof (at_drop t (length t - 2) 0 ltac:(lia)) as A0.
  pose proof (at_drop t (length t - 2) 1 ltac:(lia)) as A1.
  destruct (drop (length t - 2) t) as [|a [|b [|c l]]]; try discriminate.
  change (at_ [a; b] 0) with a in A0. change (at_ [a; b] 1) with b in A1.
  rewrite A0, A1. unfold len in *. do 3 f_equal; lia.
Qed.

(** A byte sequence of at least 11 bytes, cut as a frame is. *)
Lemma frame_split (res : list byte) :
  11 <= len res ->
  res = [at_ res 0; at_ res 1; at_ res 2; at_ res 3; at_ res 4; at_ res 5;
         at_ res 6; at_ res 7; at_ res 8]
        ++ take (Z.to_nat (len res - 11)) (drop 9 res)
        ++ [at_ res (len res - 2); at_ res (len res - 1)].
Proof.
  intros Hlen.
  do 9 (destruct res as [|? res];
        [unfold len in Hlen; simpl in Hlen; lia|]).
  rewrite !len_cons in Hlen.
  cbn [app]. do 9 f_equal.
  change (drop 9 (_ :: _ :: _ :: _ :: _ :: _ :: _ :: _ :: _ :: res))
    with res.
  rewrite !len_cons.
  replace (Z.to_nat (1 + (1 + (1 + (1 + (1 + (1 + (1 + (1 + (1 + len res))))))))
                     - 11))
    with (length res - 2)%nat by (unfold len; lia).
  assert (A : forall j, 0 <= j ->
            at_ (z :: z0 :: z1 :: z2 :: z3 :: z4 :: z5 :: z6 :: z7 :: res)
                (9 + j) = at_ res j).
  { intros j Hj. unfold at_.
    replace (Z.to_nat (9 + j)) with (9 + Z.to_nat j)%nat by lia.
    reflexivity. }
  replace (1 + (1 + (1 + (1 + (1 + (1 + (1 + (1 + (1 + len res)))))))) - 2)
    with (9 + (len res - 2)) by lia.
  replace (1 + (1 + (1 + (1 + (1 + (1 + (1 + (1 + (1 + len res)))))))) - 1)
    with (9 + (len res - 1)) by lia.
  rewrite !A by lia.
  rewrite <- drop_last_two by lia.
  symmetry. apply take_drop.
Qed.

(** What [ParsePacket] has checked of a byte sequence it accepts. *)
Lemma ParsePacket_Ok_inv (res : list byte) (p : Packet) :
  ParsePacket res = Ok p ->
  11 <= len res /\
  len res = at_ res 8 + 11 /\
  checksum (take (Z.to_nat (len res - 2)) res)
  = uint16FromBytes (at_ res (len res - 2), at_ res (len res - 1)) /\
  uint16FromBytes (at_ res 0, at_ res 1) = 0xAA55 /\
  p = {| Header := uint16FromBytes (at_ res 0, at_ res 1);
         Source := uint16FromBytes (at_ res 2, at_ res 3);
         Destination := uint16FromBytes (at_ res 4, at_ res 5);
         ControlCode := at_ res 6;
         FunctionCode := at_ res 7;
         Data := take (Z.to_nat (at_ res 8)) (drop 9 res) |}.
Proof.
  rewrite ParsePacket_checked.
  destruct (len res <? 11) eqn:E1; [discriminate|].
  destruct (len res =? at_ res 8 + 11) eqn:E2; [|discriminate].
  destruct (checksum _ =? _) eqn:E3; [|discriminate].
  destruct (uint16FromBytes (at_ res 0, at_ res 1) =? 43605) eqn:E4;
    [|discriminate].
  cbn [negb]. intros [= <-].
  apply Z.ltb_ge in E1. apply Z.eqb_eq in E2, E3, E4. auto.
Qed.

(** Decoding and encoding give back the very bytes: a byte sequence that
    [ParsePacket] accepts is the frame [Bytes] makes of the packet returned,
    that packet is well formed with header 0xAA55, and the sequence is 11
    bytes longer than its payload, hence between 11 and 266 bytes long. *)
Theorem ParsePacket_then_Bytes (res : list byte) (p : Packet) :
  Forall is_byte res -> ParsePacket res = Ok p ->
  Bytes p = Ok res /\ wf_packet p /\ Header p = 0xAA55 /\
  len res = 11 + len (Data p) /\ len (Data p) <= 255.
Proof.
  intros Hres Hp.
  destruct (ParsePacket_Ok_inv res p Hp) as (H11 & Hl & Hc & Hh & ->).
  assert (B : forall j, 0 <= j < len res -> is_byte (at_ res j))
    by (intros j Hj; apply Forall_at; assumption).
  pose proof (B 8 ltac:(lia)) as B8. unfold is_byte in B8.
  assert (Hd : len (take (Z.to_nat (at_ res 8)) (drop 9 res)) = at_ res 8).
  { unfold len in *. rewrite length_take, length_drop. lia. }
  assert (W : Forall is_byte (take (Z.to_nat (at_ res 8)) (drop 9 res))).
  { apply Forall_take, Forall_drop. exact Hres. }
  split; [|split; [|split; [|split]]].
  - rewrite Bytes_checked. cbn [Data Header Source Destination ControlCode
                                 FunctionCode].
    rewrite Hd. destruct (255 <? at_ res 8) eqn:E; [lia|].
    cbn zeta.
    rewrite !bytesFromUint16_of_bytes by (apply B; lia).
    rewrite (uint8_id (at_ res 8)) by exact B8.
    pose proof (frame_split res H11) as F.
    set (hd := [at_ res 0; at_ res 1; at_ res 2; at_ res 3; at_ res 4;
                at_ res 5; at_ res 6; at_ res 7; at_ res 8]) in *.
    set (dt := take (Z.to_nat (len res - 11)) (drop 9 res)) in *.
    set (tl := [at_ res (len res - 2); at_ res (len res - 1)]) in *.
    replace (Z.to_nat (at_ res 8)) with (Z.to_nat (len res - 11)) by lia.
    fold dt.
    assert (Ebody : [at_ res 0; at_ res 1] ++ [at_ res 2; at_ res 3]
                    ++ [at_ res 4; at_ res 5]
                    ++ [at_ res 6; at_ res 7; at_ res 8] ++ dt
                    = take (Z.to_nat (len res - 2)) res).
    { transitivity (take (length (hd ++ dt)) ((hd ++ dt) ++ tl)).
      - rewrite take_app_length. reflexivity.
      - rewrite <- app_assoc, <- F. f_equal.
        subst hd dt. rewrite length_app, length_take, length_drop.
        unfold len in *. simpl. lia. }
    rewrite Ebody, Hc, bytesFromUint16_of_bytes by (apply B; lia).
    f_equal. fold tl. rewrite F at 3. rewrite app_assoc. f_equal.
    rewrite <- Ebody. reflexivity.
  - unfold wf_packet. cbn. repeat split;
      try (apply uint16_range); try (apply B; lia); try exact W;
      try (apply (proj1 (uint16_range _))); try (apply (proj2 (uint16_range _))).
  - exact Hh.
  - cbn [Data]. lia.
  - cbn [Data]. lia.
Qed.

Lemma ParsePacket_then_Bytes_witness :
  Bytes {| Header := 0xAA55; Source := 0; Destination := 0;
           ControlCode := 0x10; FunctionCode := 0x81; Data := [0x06] |}
  = Ok ack_frame.
Proof.
  apply (ParsePacket_then_Bytes ack_frame).
  - unfold ack_frame. in_range.
  - reflexivity.
Defined.

Lemma at_app_head (l k : list byte) (i : Z) :
  0 <= i < len l -> at_ (l ++ k) i = at_ l i.
Proof.
  intros Hi. unfold at_, len in *. apply app_nth1. lia.
Qed.

(** [ParsePacket] accepts neither more nor less than one frame: when it
    accepts [pre ++ extra] with [extra] not empty it refuses [pre], as too
    short or for its length; when it accepts [res] it refuses
    [res ++ extra], for its length. *)
Theorem ParsePacket_exact_length (pre extra : list byte) :
  extra <> [] ->
  (forall p, ParsePacket (pre ++ extra) = Ok p ->
   exists e, ParsePacket pre = Err e /\
             (kind_of e = Some FrameTooShort \/
              kind_of e = Some LengthMismatch)) /\
  (forall p, ParsePacket pre = Ok p ->
   fails_with (ParsePacket (pre ++ extra))
              (Wrap ErrInvalidBody
                    (MsgSpecifiesLength (len pre) (len pre + len extra)))
              LengthMismatch).
Proof.
  intros Hex.
  assert (Hlen : 0 < len extra).
  { destruct extra; [congruence|]. rewrite len_cons.
    pose proof (len_nonneg extra). lia. }
  split.
  - intros p Hp. apply ParsePacket_Ok_inv in Hp.
    destruct Hp as (H11 & Hl & _). rewrite len_app in *.
    rewrite (ParsePacket_checked pre).
    destruct (len pre <? 11) eqn:E1; [eexists; split; [reflexivity|auto]|].
    apply Z.ltb_ge in E1. rewrite at_app_head in Hl by lia.
    destruct (len pre =? at_ pre 8 + 11) eqn:E2; [lia|].
    eexists. split; [reflexivity|auto].
  - intros p Hp. apply ParsePacket_Ok_inv in Hp.
    destruct Hp as (H11 & Hl & _).
    rewrite ParsePacket_checked, len_app.
    destruct (len pre + len extra <? 11) eqn:E1; [lia|].
    rewrite at_app_head by lia.
    destruct (len pre + len extra =? at_ pre 8 + 11) eqn:E2; [lia|].
    cbn [negb]. rewrite <- Hl. split; reflexivity.
Qed.

Lemma ParsePacket_exact_length_witness :
  fails_with (ParsePacket (ack_frame ++ ack_frame))
             (Wrap ErrInvalidBody (MsgSpecifiesLength 12 24)) LengthMismatch.
Proof.
  destruct (ParsePacket_exact_length ack_frame ack_frame) as [_ H].
  - discriminate.
  - eapply H. reflexivity.
Defined.

Lemma at_insert_eq (l : list byte) (i : nat) (b : byte) :
  (i < length l)%nat -> at_ (<[i := b]> l) (Z.of_nat i) = b.
Proof.
  intros Hi. unfold at_. rewrite Nat2Z.id, nth_lookup.
  rewrite list_lookup_insert_eq by exact Hi. reflexivity.
Qed.

Lemma at_insert_ne (l : list byte) (i : nat) (j : Z) (b : byte) :
  Z.to_nat j <> i -> at_ (<[i := b]> l) j = at_ l j.
Proof.
  intros Hne. unfold at_. rewrite !nth_lookup.
  rewrite list_lookup_insert_ne by congruence. reflexivity.
Qed.

Lemma byte_sum_insert (l : list byte) (i : nat) (b : byte) :
  (i < length l)%nat ->
  byte_sum (<[i := b]> l) = byte_sum l - at_ l (Z.of_nat i) + b.
Proof.
  revert i. induction l as [|x l IH]; intros i Hi; simpl in Hi; [lia|].
  destruct i as [|i].
  - simpl. unfold at_. simpl. lia.
  - simpl. rewrite IH by lia. unfold at_. rewrite !Nat2Z.id. simpl. lia.
Qed.

Lemma len_insert (l : list byte) (i : nat) (b : byte) :
  len (<[i := b]> l) = len l.
Proof. unfold len. rewrite length_insert. reflexivity. Qed.

(** The checksum catches every change of one byte: when [ParsePacket]
    accepts a byte sequence, it refuses the sequence with any one byte
    replaced by a different byte, with a length error when the byte is the
    length byte (offset 8) and with a checksum error otherwise, the header
    bytes and the checksum bytes included. *)
Theorem ParsePacket_detects_single_byte_change (res : list byte) (p : Packet)
    (i : nat) (b : byte) :
  Forall is_byte res -> ParsePacket res = Ok p ->
  (i < length res)%nat -> is_byte b -> b <> at_ res (Z.of_nat i) ->
  exists e : error,
    ParsePacket (<[i := b]> res) = Err e /\
    kind_of e = Some (if Nat.eqb i 8 then LengthMismatch
                      else ChecksumMismatch).
Proof.
  intros Hres Hp Hi Hb Hne.
  destruct (ParsePacket_Ok_inv res p Hp) as (H11 & Hl & Hc & _).
  assert (B : forall j, 0 <= j < len res -> is_byte (at_ res j))
    by (intros j Hj; apply Forall_at; assumption).
  assert (Hres' : Forall is_byte (<[i := b]> res))
    by (apply Forall_insert; assumption).
  assert (B' : forall j, 0 <= j < len res -> is_byte (at_ (<[i := b]> res) j)).
  { intros j Hj. apply Forall_at; [assumption|]. rewrite len_insert. lia. }
  rewrite ParsePacket_checked, len_insert.
  destruct (len res <? 11) eqn:E1; [lia|clear E1].
  destruct (Nat.eqb_spec i 8) as [->|Hi8].
  - change 8 with (Z.of_nat 8) at 1. rewrite at_insert_eq by exact Hi.
    destruct (len res =? b + 11) eqn:E2; [|eexists; split; reflexivity].
    apply Z.eqb_eq in E2. exfalso. apply Hne. change (Z.of_nat 8) with 8. lia.
  - rewrite (at_insert_ne res i 8) by (change (Z.to_nat 8) with 8%nat; lia).
    destruct (len res =? at_ res 8 + 11) eqn:E2; [clear E2|lia].
    cbn [negb].
    rewrite checksum_byte_sum in *.
    rewrite uint16FromBytes_be16 in * by (first [apply B'|apply B]; lia).
    pose proof (B (Z.of_nat i) ltac:(unfold len; lia)) as Bi.
    unfold is_byte in Bi, Hb.
    destruct (le_lt_dec (Z.to_nat (len res - 2)) i) as [Hge|Hlt].
    + (* one of the two checksum bytes *)
      rewrite take_insert_ge by exact Hge.
      assert (Hcase : Z.of_nat i = len res - 2 \/ Z.of_nat i = len res - 1)
        by (unfold len in *; lia).
      pose proof (B (len res - 2) ltac:(lia)) as B2.
      pose proof (B (len res - 1) ltac:(lia)) as B1.
      unfold is_byte in B1, B2.
      destruct Hcase as [Ei|Ei].
      * replace (at_ (<[i := b]> res) (len res - 2)) with b
          by (rewrite <- Ei; symmetry; apply at_insert_eq; exact Hi).
        rewrite at_insert_ne by lia.
        rewrite Ei in Hne.
        destruct (_ =? _) eqn:E3; [|eexists; split; reflexivity].
        apply Z.eqb_eq in E3. unfold be16 in *. lia.
      * replace (at_ (<[i := b]> res) (len res - 1)) with b
          by (rewrite <- Ei; symmetry; apply at_insert_eq; exact Hi).
        rewrite at_insert_ne by lia.
        rewrite Ei in Hne.
        destruct (_ =? _) eqn:E3; [|eexists; split; reflexivity].
        apply Z.eqb_eq in E3. unfold be16 in *. lia.
    + (* a byte under the checksum *)
      rewrite take_insert_lt by exact Hlt.
      rewrite !at_insert_ne by (unfold len in *; lia).
      rewrite byte_sum_insert by (rewrite length_take; lia).
      rewrite at_take by (rewrite Nat2Z.id; exact Hlt).
      destruct (_ =? _) eqn:E3; [|eexists; split; reflexivity].
      apply Z.eqb_eq in E3. rewrite <- Hc in E3. exfalso.
      set (S := byte_sum (take (Z.to_nat (len res - 2)) res)) in *.
      set (d := at_ res (Z.of_nat i)) in *.
      pose proof (Z.div_mod (S - d + b) 65536 ltac:(lia)) as D1.
      pose proof (Z.div_mod S 65536 ltac:(lia)) as D2.
      rewrite E3 in D1. lia.
Qed.

Lemma ParsePacket_detects_single_byte_change_witness :
  exists e : error,
    ParsePacket (<[9%nat := 0x15]> ack_frame) = Err e /\
    kind_of e = Some ChecksumMismatch.
Proof.
  apply (ParsePacket_detects_single_byte_change ack_frame
           {| Header := 0xAA55; Source := 0; Destination := 0;
              ControlCode := 0x10; FunctionCode := 0x81; Data := [0x06] |}
           9 0x15).
  - unfold ack_frame. in_range.
  - reflexivity.
  - simpl. lia.
  - in_range.
  - vm_compute. discriminate.
Defined.

(** * Further properties of the requests *)

Lemma uint16FromBytes_zero_high (a : byte) :
  is_byte a -> uint16FromBytes (0, a) = a.
Proof.
  intros Ha. rewrite uint16FromBytes_be16 by (first [exact Ha|in_range]).
  unfold be16. lia.
Qed.

(** The two query requests encode, for every address byte, to 11 bytes:
    the header AA 55, the source 00 00, the destination 00 [address], the
    control code 0x11, the function code (0x02 for the telemetry, 0x03 for
    the device information), the length 0 and the checksum, which is
    0x112 + address, respectively 0x113 + address. *)
Theorem query_request_frames (address : byte) :
  is_byte address ->
  Bytes (NormalInfoRequest address)
  = Ok [0xAA; 0x55; 0; 0; 0; address; 0x11; 0x02; 0;
        (0x112 + address) / 256; (0x112 + address) mod 256] /\
  Bytes (InverterInfoRequest address)
  = Ok [0xAA; 0x55; 0; 0; 0; address; 0x11; 0x03; 0;
        (0x113 + address) / 256; (0x113 + address) mod 256].
Proof.
  intros Ha. pose proof Ha as Ha'. unfold is_byte in Ha'.
  assert (D : Z.div address 256 = 0) by (apply Z.div_small; lia).
  assert (M : Z.modulo address 256 = address) by (apply Z.mod_small; lia).
  assert (BA : bytesFromUint16 address = [0; address])
    by (unfold bytesFromUint16; rewrite D, M, (uint8_id address Ha);
        reflexivity).
  split.
  - rewrite Bytes_checked.
    unfold NormalInfoRequest, with_codes, with_Destination, DefaultPacket.
    cbn [Header Source Destination ControlCode FunctionCode Data].
    rewrite uint16FromBytes_zero_high by exact Ha.
    change (255 <? len []) with false. cbv iota zeta.
    rewrite !BA.
    change (bytesFromUint16 43605) with [170; 85].
    change (bytesFromUint16 0) with [0; 0].
    change (uint8 (len [])) with 0. unfold ControlCodeRead. cbn [app].
    rewrite checksum_byte_sum. cbn [byte_sum fold_right].
    replace (_ mod 65536) with (274 + address)
      by (rewrite Z.mod_small by lia; lia).
    rewrite bytesFromUint16_be16_bytes by (unfold is_uint16; lia).
    reflexivity.
  - rewrite Bytes_checked.
    unfold InverterInfoRequest, with_codes, with_Destination, DefaultPacket.
    cbn [Header Source Destination ControlCode FunctionCode Data].
    rewrite uint16FromBytes_zero_high by exact Ha.
    change (255 <? len []) with false. cbv iota zeta.
    rewrite !BA.
    change (bytesFromUint16 43605) with [170; 85].
    change (bytesFromUint16 0) with [0; 0].
    change (uint8 (len [])) with 0. unfold ControlCodeRead. cbn [app].
    rewrite checksum_byte_sum. cbn [byte_sum fold_right].
    replace (_ mod 65536) with (275 + address)
      by (rewrite Z.mod_small by lia; lia).
    rewrite bytesFromUint16_be16_bytes by (unfold is_uint16; lia).
    reflexivity.
Qed.

Lemma query_request_frames_witness :
  Bytes (NormalInfoRequest 0x0A)
  = Ok [0xAA; 0x55; 0; 0; 0; 0x0A; 0x11; 0x02; 0; 0x01; 0x1C].
Proof.
  destruct (query_request_frames 0x0A) as [H _]; [in_range|].
  exact H.
Defined.

Lemma wf_registration_request (function : byte) (serial : list byte)
    (address : byte) :
  is_byte function -> Forall is_byte serial -> is_byte address ->
  wf_packet (with_Data (with_codes DefaultPacket ControlCodeRegister function)
                       (serial ++ [address])).
Proof.
  intros Hf Hs Ha. unfold wf_packet.
  cbn [with_Data with_codes DefaultPacket Header Source Destination
       ControlCode FunctionCode Data].
  split; [unfold is_uint16; lia|]. split; [unfold is_uint16; lia|].
  split; [unfold is_uint16; lia|].
  split; [unfold is_byte, ControlCodeRegister; lia|].
  split; [exact Hf|].
  apply Forall_app. split; [exact Hs|]. constructor; [exact Ha|constructor].
Qed.

(** The registration and removal requests carry the serial followed by the
    address as their payload.  With a serial of 255 bytes or more they are
    not encoded: [Bytes] returns [ErrMaxDataSizeExceeded].  With a shorter
    serial the frame is 12 bytes longer than the serial and decodes to the
    request itself. *)
Theorem registration_request_frames (serial : list byte) (address : byte) :
  Forall is_byte serial -> is_byte address ->
  let reg := RegisterInverterRequest serial address in
  let unreg := UnregisterInverterRequest serial address in
  Data reg = serial ++ [address] /\ Data unreg = serial ++ [address] /\
  (255 <= len serial ->
   Bytes reg = Err (Sentinel ErrMaxDataSizeExceeded) /\
   Bytes unreg = Err (Sentinel ErrMaxDataSizeExceeded)) /\
  (len serial < 255 ->
   exists bs bs' : list byte,
     Bytes reg = Ok bs /\ len bs = 12 + len serial /\
     ParsePacket bs = Ok reg /\
     Bytes unreg = Ok bs' /\ len bs' = 12 + len serial /\
     ParsePacket bs' = Ok unreg).
Proof.
  intros Hs Ha reg unreg.
  assert (Ld : len (serial ++ [address]) = len serial + 1)
    by (rewrite len_app; reflexivity).
  split; [reflexivity|]. split; [reflexivity|]. split.
  - intros Hlen. subst reg unreg. rewrite !Bytes_checked.
    unfold RegisterInverterRequest, UnregisterInverterRequest.
    cbn zeta. cbn [with_Data Data]. rewrite Ld.
    destruct (255 <? len serial + 1) eqn:E; [split; reflexivity|lia].
  - intros Hlen.
    assert (Wr : wf_packet reg)
      by (apply wf_registration_request; [in_range|assumption..]).
    assert (Wu : wf_packet unreg)
      by (apply wf_registration_request; [in_range|assumption..]).
    destruct (ParsePacket_of_Bytes reg Wr) as (bs & Hb & Hp);
      [subst reg; cbn; lia|].
    destruct (ParsePacket_of_Bytes unreg Wu) as (bs' & Hb' & Hp');
      [subst unreg; cbn; lia|].
    exists bs, bs'.
    assert (Lb : len bs = 12 + len serial).
    { apply ParsePacket_Ok_inv in Hp. destruct Hp as (_ & Hl & _ & _ & Hr).
      apply (f_equal Data) in Hr. cbn [Data] in Hr.
      apply (f_equal len) in Hr. change (Data reg) with (serial ++ [address]) in Hr.
      rewrite Ld in Hr. unfold len in Hr at 2.
      rewrite length_take, length_drop in Hr. unfold len in *. lia. }
    assert (Lb' : len bs' = 12 + len serial).
    { apply ParsePacket_Ok_inv in Hp'. destruct Hp' as (_ & Hl & _ & _ & Hr).
      apply (f_equal Data) in Hr. cbn [Data] in Hr.
      apply (f_equal len) in Hr.
      change (Data unreg) with (serial ++ [address]) in Hr.
      rewrite Ld in Hr. unfold len in Hr at 2.
      rewrite length_take, length_drop in Hr. unfold len in *. lia. }
    repeat split; assumption.
Qed.

Lemma registration_request_frames_witness :
  exists bs : list byte,
    Bytes (RegisterInverterRequest [0x31; 0x32; 0x33] 0x0A) = Ok bs /\
    len bs = 15.
Proof.
  destruct (registration_request_frames [0x31; 0x32; 0x33] 0x0A)
    as (_ & _ & _ & H); [in_range..|].
  destruct H as (bs & _ & Hb & Hl & _); [vm_compute; reflexivity|].
  exists bs. split; [exact Hb|exact Hl].
Defined.


(** * Further properties of the payload decoders *)

(** [NormalInfoResponseFromData] on a payload of 50 bytes, with every slice
    expression resolved. *)
Lemma NormalInfoResponseFromData_50 (data : list byte) :
  len data = 50 ->
  NormalInfoResponseFromData data =
  Ok {| Temperature := uint16FromBytes (at_ data 0, at_ data 1);
        EnergyToday := uint16FromBytes (at_ data 2, at_ data 3);
        Vpv1 := uint16FromBytes (at_ data 4, at_ data 5);
        Vpv2 := uint16FromBytes (at_ data 6, at_ data 7);
        Apv1 := uint16FromBytes (at_ data 8, at_ data 9);
        Apv2 := uint16FromBytes (at_ data 10, at_ data 11);
        Iac := uint16FromBytes (at_ data 12, at_ data 13);
        Vac := uint16FromBytes (at_ data 14, at_ data 15);
        Frequency := uint16FromBytes (at_ data 16, at_ data 17);
        Power := uint16FromBytes (at_ data 18, at_ data 19);
        Unused := 0;
        EnergyTotal := uint32FromBytes (at_ data 22, at_ data 23,
                                        at_ data 24, at_ data 25);
        TimeTotal := uint32FromBytes (at_ data 26, at_ data 27,
                                      at_ data 28, at_ data 29);
        Mode := uint16FromBytes (at_ data 30, at_ data 31);
        GridVoltFault := uint16FromBytes (at_ data 32, at_ data 33);
        GridFreqFault := uint16FromBytes (at_ data 34, at_ data 35);
        DCIFault := uint16FromBytes (at_ data 36, at_ data 37);
        TemperatureFault := uint16FromBytes (at_ data 38, at_ data 39);
        PV1Fault := uint16FromBytes (at_ data 40, at_ data 41);
        PV2Fault := uint16FromBytes (at_ data 42, at_ data 43);
        GFCFault := uint16FromBytes (at_ data 44, at_ data 45);
        ErrMessage := uint32FromBytes (at_ data 46, at_ data 47,
                                       at_ data 48, at_ data 49) |}.
Proof.
  intros E. unfold NormalInfoResponseFromData.
  rewrite E. change (negb (50 =? 50)) with false. cbv iota.
  repeat match goal with
         | |- context [uint16_at data ?lo ?hi] =>
           rewrite (uint16_at_within data lo hi 50 E eq_refl), bind_Ok;
           cbv beta
         | |- context [uint32_at data ?lo ?hi] =>
           rewrite (uint32_at_within data lo hi 50 E eq_refl), bind_Ok;
           cbv beta
         end.
  reflexivity.
Qed.

(** The telemetry payload is decoded by fixed offsets, most significant
    byte first: [NormalInfoResponseFromData] returns, on a payload of
    exactly 50 bytes, the ten 16-bit fields of offsets 0 to 19, the two
    32-bit fields of offsets 22 and 26, the eight 16-bit fields of offsets
    30 to 45 and the 32-bit error message code of offset 46; on a payload
    of any other length it returns the bare [ErrInvalidBody]. *)
Theorem NormalInfoResponseFromData_fields (data : list byte) :
  Forall is_byte data ->
  (len data = 50 ->
   NormalInfoResponseFromData data =
   Ok {| Temperature := be16 (at_ data 0) (at_ data 1);
         EnergyToday := be16 (at_ data 2) (at_ data 3);
         Vpv1 := be16 (at_ data 4) (at_ data 5);
         Vpv2 := be16 (at_ data 6) (at_ data 7);
         Apv1 := be16 (at_ data 8) (at_ data 9);
         Apv2 := be16 (at_ data 10) (at_ data 11);
         Iac := be16 (at_ data 12) (at_ data 13);
         Vac := be16 (at_ data 14) (at_ data 15);
         Frequency := be16 (at_ data 16) (at_ data 17);
         Power := be16 (at_ data 18) (at_ data 19);
         Unused := 0;
         EnergyTotal := be32 (at_ data 22) (at_ data 23)
                             (at_ data 24) (at_ data 25);
         TimeTotal := be32 (at_ data 26) (at_ data 27)
                           (at_ data 28) (at_ data 29);
         Mode := be16 (at_ data 30) (at_ data 31);
         GridVoltFault := be16 (at_ data 32) (at_ data 33);
         GridFreqFault := be16 (at_ data 34) (at_ data 35);
         DCIFault := be16 (at_ data 36) (at_ data 37);
         TemperatureFault := be16 (at_ data 38) (at_ data 39);
         PV1Fault := be16 (at_ data 40) (at_ data 41);
         PV2Fault := be16 (at_ data 42) (at_ data 43);
         GFCFault := be16 (at_ data 44) (at_ data 45);
         ErrMessage := be32 (at_ data 46) (at_ data 47)
                            (at_ data 48) (at_ data 49) |}) /\
  (len data <> 50 ->
   NormalInfoResponseFromData data = Err (Sentinel ErrInvalidBody)).
Proof.
  intros Hd. split.
  - intros E. rewrite (NormalInfoResponseFromData_50 data E).
    assert (B : forall j, 0 <= j < 50 -> is_byte (at_ data j))
      by (intros j Hj; apply Forall_at; [assumption|lia]).
    rewrite !uint16FromBytes_be16 by (apply B; lia).
    rewrite !uint32FromBytes_value by (apply B; lia).
    reflexivity.
  - intros E. unfold NormalInfoResponseFromData.
    apply Z.eqb_neq in E. rewrite E. reflexivity.
Qed.

Lemma NormalInfoResponseFromData_fields_witness :
  NormalInfoResponseFromData [0x06] = Err (Sentinel ErrInvalidBody).
Proof.
  destruct (NormalInfoResponseFromData_fields [0x06]) as [_ H]; [in_range|].
  apply H. vm_compute. discriminate.
Defined.

(** The bytes of offsets 20 and 21 of the telemetry payload are not read:
    replacing either of them leaves the result of
    [NormalInfoResponseFromData] as it is. *)
Theorem NormalInfoResponseFromData_ignores_20_21 (data : list byte) (i : nat)
    (b : byte) :
  i = 20%nat \/ i = 21%nat ->
  NormalInfoResponseFromData (<[i := b]> data)
  = NormalInfoResponseFromData data.
Proof.
  intros Hi. destruct (Z.eq_dec (len data) 50) as [E|E].
  - assert (E' : len (<[i := b]> data) = 50) by (rewrite len_insert; exact E).
    rewrite (NormalInfoResponseFromData_50 _ E'),
      (NormalInfoResponseFromData_50 _ E).
    rewrite !(at_insert_ne data i) by (destruct Hi; subst i; compute; lia).
    reflexivity.
  - unfold NormalInfoResponseFromData. rewrite len_insert.
    apply Z.eqb_neq in E. rewrite E. reflexivity.
Qed.

Lemma NormalInfoResponseFromData_ignores_20_21_witness :
  NormalInfoResponseFromData (<[20%nat := 0xFF]> (repeat 0 50))
  = NormalInfoResponseFromData (repeat 0 50).
Proof.
  apply NormalInfoResponseFromData_ignores_20_21. left. reflexivity.
Defined.

Lemma take_drop_chain (l : list byte) (n a b m c : nat) :
  m = (n + a)%nat -> c = (a + b)%nat ->
  take a (drop n l) ++ take b (drop m l) = take c (drop n l).
Proof.
  intros -> ->. rewrite <- (drop_drop l a n). apply take_take_drop.
Qed.

(** The fields of the device information tile the bytes of offsets 9 to 66
    of the payload: on a payload of at least 67 bytes
    [InverterInfoResponseFromData] returns a record whose phase byte and
    six text fields, of 6, 5, 14, 14, 14 and 4 bytes, are those 58 bytes
    in order; the bytes before offset 9 and from offset 67 on are not
    read.  On a shorter payload it returns an error that wraps
    [ErrInvalidBody]. *)
Theorem InverterInfoResponseFromData_fields (data : list byte) :
  (67 <= len data ->
   exists r : InverterInfoResponse,
     InverterInfoResponseFromData data = Ok r /\
     [Phase r] ++ RatedPower r ++ FirmwareVersion r ++ ModuleName r
     ++ FactoryName r ++ SerialNumber r ++ RatedBusVoltage r
     = take 58 (drop 9 data) /\
     length (RatedPower r) = 6%nat /\ length (FirmwareVersion r) = 5%nat /\
     length (ModuleName r) = 14%nat /\ length (FactoryName r) = 14%nat /\
     length (SerialNumber r) = 14%nat /\
     length (RatedBusVoltage r) = 4%nat) /\
  (len data < 67 ->
   exists e : error,
     InverterInfoResponseFromData data = Err e /\
     errors_Is e ErrInvalidBody = true).
Proof.
  split.
  - intros Hlen. unfold InverterInfoResponseFromData.
    destruct (len data <? 67) eqn:E; [lia|clear E].
    rewrite index_in_range by lia. cbn [bind].
    repeat (rewrite slice_in_range by lia; cbn [bind]).
    eexists. split; [reflexivity|].
    cbn [Phase RatedPower FirmwareVersion ModuleName FactoryName SerialNumber
         RatedBusVoltage].
    repeat match goal with
           | |- context [Z.to_nat ?z] =>
             let n := eval compute in (Z.to_nat z) in
             change (Z.to_nat z) with n
           end.
    assert (L : (67 <= length data)%nat) by (unfold len in Hlen; lia).
    split.
    + assert (P : [at_ data 9] = take 1 (drop 9 data)).
      { pose proof (at_drop data 9 0 ltac:(lia)) as A.
        change (Z.of_nat 9 + 0) with 9 in A. rewrite <- A.
        assert (Ld : (1 <= length (drop 9 data))%nat)
          by (rewrite length_drop; lia).
        destruct (drop 9 data); [simpl in Ld; lia|reflexivity]. }
      rewrite P.
      rewrite (take_drop_chain data 49 14 4 63 18 eq_refl eq_refl).
      rewrite (take_drop_chain data 35 14 18 49 32 eq_refl eq_refl).
      rewrite (take_drop_chain data 21 14 32 35 46 eq_refl eq_refl).
      rewrite (take_drop_chain data 16 5 46 21 51 eq_refl eq_refl).
      rewrite (take_drop_chain data 10 6 51 16 57 eq_refl eq_refl).
      apply (take_drop_chain data 9 1 57 10 58 eq_refl eq_refl).
    + rewrite !length_take, !length_drop. lia.
  - intros Hlen. unfold InverterInfoResponseFromData.
    destruct (len data <? 67) eqn:E; [|lia].
    eexists. split; reflexivity.
Qed.

Lemma ParsePacket_Ok_payload (res : list byte) (p : Packet) :
  ParsePacket res = Ok p ->
  len res = 11 + len (Data p) /\ at_ res 8 = len (Data p) /\
  ControlCode p = at_ res 6 /\ FunctionCode p = at_ res 7 /\
  Data p = take (Z.to_nat (len res - 11)) (drop 9 res).
Proof.
  intros Hp. apply ParsePacket_Ok_inv in Hp.
  destruct Hp as (H11 & Hl & _ & _ & ->).
  cbn [Data ControlCode FunctionCode].
  assert (Hd : len (take (Z.to_nat (at_ res 8)) (drop 9 res)) = at_ res 8).
  { unfold len in *. rewrite length_take, length_drop. lia. }
  rewrite Hd. repeat split; try lia. do 2 f_equal. lia.
Qed.

(** The only telemetry response [ParseNormalInfoResponse] accepts is a frame
    of exactly 61 bytes with control code 0x11, function code 0x82 and a
    declared length of 50, and the record is the decoding of its bytes 9 to
    58; the device information response [ParseInverterInfoResponse]
    accepts is a frame of at least 78 bytes with control code 0x11 and
    function code 0x83, and the record is the decoding of its payload. *)
Theorem info_response_frames (body : list byte) :
  (forall r : NormalInfoResponse,
      ParseNormalInfoResponse body = Ok r ->
      len body = 61 /\ at_ body 6 = 0x11 /\ at_ body 7 = 0x82 /\
      at_ body 8 = 50 /\
      NormalInfoResponseFromData (take 50 (drop 9 body)) = Ok r) /\
  (forall r : InverterInfoResponse,
      ParseInverterInfoResponse body = Ok r ->
      78 <= len body /\ at_ body 6 = 0x11 /\ at_ body 7 = 0x83 /\
      at_ body 8 = len body - 11 /\
      InverterInfoResponseFromData
        (take (Z.to_nat (len body - 11)) (drop 9 body)) = Ok r).
Proof.
  split.
  - intros r. unfold ParseNormalInfoResponse.
    destruct (ParsePacket body) as [p|e|] eqn:Ep; cbn [bind];
      [|discriminate..].
    destruct (ParsePacket_Ok_payload body p Ep) as (Hl & H8 & Hc & Hf & Hd).
    unfold ControlCodeRead.
    destruct (ControlCode p =? 17) eqn:E1; [|discriminate].
    destruct (FunctionCode p =? 130) eqn:E2; [|discriminate].
    cbn [negb]. intros Hr.
    apply Z.eqb_eq in E1, E2.
    destruct (NormalInfoResponseFromData_total (Data p))
      as [(L & _)|(_ & Herr)]; [|congruence].
    rewrite Hd in Hr. replace (Z.to_nat (len body - 11)) with 50%nat in Hr
      by lia.
    repeat split; try lia; [congruence..|exact Hr].
  - intros r. unfold ParseInverterInfoResponse.
    destruct (ParsePacket body) as [p|e|] eqn:Ep; cbn [bind];
      [|discriminate..].
    destruct (ParsePacket_Ok_payload body p Ep) as (Hl & H8 & Hc & Hf & Hd).
    unfold ControlCodeRead.
    destruct (ControlCode p =? 17) eqn:E1; [|discriminate].
    destruct (FunctionCode p =? 131) eqn:E2; [|discriminate].
    cbn [negb]. intros Hr.
    apply Z.eqb_eq in E1, E2.
    destruct (InverterInfoResponseFromData_total (Data p))
      as [(L & _)|(_ & Herr)]; [|congruence].
    rewrite Hd in Hr.
    repeat split; try lia; [congruence..|exact Hr].
Qed.


(** * Further properties of the fault names *)

Lemma pick_sublist (b : bool) (x : string) (l t : list string) :
  l `sublist_of` t -> (if b then [x] else []) ++ l `sublist_of` x :: t.
Proof.
  intros Hl. destruct b; simpl.
  - apply sublist_skip. exact Hl.
  - apply sublist_cons. exact Hl.
Qed.

Lemma pick_nil_iff {A B : Type} (g : A -> bool) (h : A -> B) (l : list A) :
  flat_map (fun k => if g k then [h k] else []) l = [] <->
  Forall (fun k => g k = false) l.
Proof.
  induction l as [|a l IH]; simpl.
  - split; [constructor|reflexivity].
  - split.
    + intros E. apply app_eq_nil in E as [Ea El].
      constructor; [destruct (g a); [discriminate|reflexivity]|].
      apply IH. exact El.
    + intros F. inversion F as [|? ? Ha Hl]; subst.
      rewrite Ha. simpl. apply IH. exact Hl.
Qed.

Lemma pick_length {A B : Type} (g : A -> bool) (h : A -> B) (l : list A) :
  length (flat_map (fun k => if g k then [h k] else []) l)
  = length (List.filter g l).
Proof.
  induction l as [|a l IH]; simpl; [reflexivity|].
  rewrite length_app, IH. destruct (g a); reflexivity.
Qed.

(** The fault names come out in the order of the table and at most once
    each: the list [NormalizeInfoResponse] gives is a sublist of the 32
    names of the table, without repetition, whatever the error message
    code. *)
Theorem fault_names_sublist (r : NormalInfoResponse) :
  Normalized.ErrMessage (NormalizeInfoResponse r) `sublist_of` fault_table /\
  NoDup (Normalized.ErrMessage (NormalizeInfoResponse r)).
Proof.
  assert (S : Normalized.ErrMessage (NormalizeInfoResponse r)
              `sublist_of` fault_table).
  { rewrite NormalizeInfoResponse_ErrMessage.
    set (tb := Z.testbit (ErrMessage r)). clearbody tb.
    cbn. repeat apply pick_sublist. constructor. }
  split; [exact S|].
  eapply sublist_NoDup; [|exact S].
  apply (bool_decide_unpack _). vm_compute. exact I.
Qed.

(** There is one fault name for each bit set among the 32 bits of the error
    message code. *)
Theorem fault_names_count (r : NormalInfoResponse) :
  length (Normalized.ErrMessage (NormalizeInfoResponse r))
  = set_bits_32 (ErrMessage r).
Proof.
  rewrite NormalizeInfoResponse_ErrMessage, pick_length.
  unfold set_bits_32.
  set (tb := fun k : nat => Z.testbit (ErrMessage r) (Z.of_nat k)).
  assert (E : List.filter
                (fun k => Z.testbit (ErrMessage r) (31 - Z.of_nat k))
                (seq 0 32)
              = List.filter (fun a => tb (31 - a)%nat) (seq 0 32)).
  { apply filter_ext_in. intros a Ha. apply in_seq in Ha.
    unfold tb. f_equal. lia. }
  rewrite E. clear E. clearbody tb.
  rewrite <- (length_map (fun a => (31 - a)%nat)).
  rewrite <- (filter_map_swap tb (fun a => (31 - a)%nat)).
  change (map (fun a => (31 - a)%nat) (seq 0 32)) with (rev (seq 0 32)).
  rewrite List.filter_rev. apply length_rev.
Qed.

(** For a 32-bit error message code, [NormalizeInfoResponse] gives no fault
    name exactly when the code is 0. *)
Theorem fault_names_empty_iff (r : NormalInfoResponse) :
  is_uint32 (ErrMessage r) ->
  (Normalized.ErrMessage (NormalizeInfoResponse r) = [] <-> ErrMessage r = 0).
Proof.
  intros He. rewrite NormalizeInfoResponse_ErrMessage. split.
  - intros E. apply pick_nil_iff in E. rewrite Forall_forall in E.
    apply Z.bits_inj'. intros n Hn. rewrite Z.bits_0.
    destruct (Z_lt_le_dec n 32) as [Hlt|Hge].
    + specialize (E (Z.to_nat (31 - n))).
      replace (31 - Z.of_nat (Z.to_nat (31 - n))) with n in E by lia.
      apply E. apply list_elem_of_In, in_seq. lia.
    + unfold is_uint32 in He.
      destruct (Z.eq_dec (ErrMessage r) 0) as [->|Hnz]; [apply Z.bits_0|].
      apply Z.bits_above_log2; [lia|].
      assert (Z.log2 (ErrMessage r) < 32)
        by (apply Z.log2_lt_pow2; [lia|]; change (2 ^ 32) with 4294967296; lia).
      lia.
  - intros ->. reflexivity.
Qed.

Lemma fault_names_empty_iff_witness :
  Normalized.ErrMessage (NormalizeInfoResponse (info_with 2 0)) = [].
Proof.
  apply (fault_names_empty_iff (info_with 2 0)).
  - in_range.
  - reflexivity.
Defined.


(** * Further properties of the client *)

Section ClientFurther.
Context {C : Type} `{Connection C}.

(** A failed flush ends every operation at once: the error of the flush is
    returned as it is, nothing is written or read (the connection is as the
    flush left it and the last response is the one before), and the
    inverter is as it was. *)
Theorem flush_error_aborts (c : Client C) (inv : Inverter) (address : byte)
    (conn : C) (e : error) :
  conn_Flush (Conn c) = (conn, Some e) ->
  FindUnregisteredInverter c = (with_Conn c conn, Err e) /\
  RegisterInverter c (Some inv) address
  = (with_Conn c conn, Some inv, Err e) /\
  UnregisterInverter c (Some inv) = (with_Conn c conn, Some inv, Err e) /\
  GetInfo c (Some inv) = (with_Conn c conn, Err e) /\
  GetInverterInfo c (Some inv) = (with_Conn c conn, Err e).
Proof.
  intros Hf.
  unfold FindUnregisteredInverter, RegisterInverter, UnregisterInverter,
    GetInfo, GetInverterInfo.
  rewrite Hf. repeat split; reflexivity.
Qed.




Lemma response_parsers_no_panic (resp : list byte) :
  ParseUnregisteredInverterResponse resp <> Panic /\
  ParseNormalInfoResponse resp <> Panic /\
  ParseInverterInfoResponse resp <> Panic.
Proof.
  pose proof (ParsePacket_no_panic resp) as HP.
  unfold ParseUnregisteredInverterResponse, ParseNormalInfoResponse,
    ParseInverterInfoResponse.
  destruct (ParsePacket resp) as [p|e|]; [|repeat split; discriminate|congruence].
  cbn [bind]. split; [|split].
  - destruct (negb _); [discriminate|]. destruct (negb _); discriminate.
  - destruct (negb _); [discriminate|]. destruct (negb _); [discriminate|].
    destruct (NormalInfoResponseFromData_total (Data p))
      as [(_ & r & ->)|(_ & ->)]; discriminate.
  - destruct (negb _); [discriminate|]. destruct (negb _); [discriminate|].
    destruct (InverterInfoResponseFromData_total (Data p))
      as [(_ & r & ->)|(_ & ->)]; discriminate.
Qed.

(** No operation of the client panics, whatever the connection does and
    whatever bytes it delivers, and whether the inverter is nil or not:
    each returns a result or an error. *)
Theorem client_never_panics (c : Client C) (inverter : option Inverter)
    (address : byte) :
  snd (FindUnregisteredInverter c) <> Panic /\
  snd (RegisterInverter c inverter address) <> Panic /\
  snd (UnregisterInverter c inverter) <> Panic /\
  snd (GetInfo c inverter) <> Panic /\
  snd (GetInverterInfo c inverter) <> Panic.
Proof.
  split.
  { rewrite FindUnregisteredInverter_exchange.
    pose proof (exchange_no_panic c UnregisteredInverterRequest) as NP.
    destruct (exchange c _) as [c' [resp|e|]]; simpl in *;
      [|discriminate|congruence].
    destruct (len resp =? 0); [discriminate|].
    destruct (response_parsers_no_panic resp) as (NU & _ & _).
    destruct (ParseUnregisteredInverterResponse resp);
      [discriminate..|congruence]. }
  destruct inverter as [inv|]; [|repeat split; discriminate].
  rewrite RegisterInverter_exchange, UnregisterInverter_exchange,
    GetInfo_exchange, GetInverterInfo_exchange.
  split; [|split; [|split]].
  - pose proof (exchange_no_panic c
                  (RegisterInverterRequest (Serial inv) address)) as NP.
    destruct (exchange c _) as [c' [resp|e|]]; simpl in *;
      [|discriminate|congruence].
    destruct (ParseRegisterInverterResponse_cases resp) as [[E _]|[E _]].
    + rewrite E. discriminate.
    + destruct (ParseRegisterInverterResponse resp);
        simpl in E; [contradiction|discriminate|contradiction].
  - pose proof (exchange_no_panic c
                  (UnregisterInverterRequest (Serial inv) (Address inv)))
      as NP.
    destruct (exchange c _) as [c' [resp|e|]]; simpl in *;
      [|discriminate|congruence].
    destruct (ParseUnregisterInverterResponse_cases resp) as [[E _]|[E _]].
    + rewrite E. discriminate.
    + destruct (ParseUnregisterInverterResponse resp);
        simpl in E; [contradiction|discriminate|contradiction].
  - pose proof (exchange_no_panic c (NormalInfoRequest (Address inv))) as NP.
    destruct (exchange c _) as [c' [resp|e|]]; simpl in *;
      [|discriminate|congruence].
    apply (response_parsers_no_panic resp).
  - pose proof (exchange_no_panic c (InverterInfoRequest (Address inv)))
      as NP.
    destruct (exchange c _) as [c' [resp|e|]]; simpl in *;
      [|discriminate|congruence].
    apply (response_parsers_no_panic resp).
Qed.

Lemma exchange_LastResponse (c : Client C) (p : Packet) (resp : list byte) :
  snd (exchange c p) = Ok resp -> LastResponse (fst (exchange c p)) = resp.
Proof.
  unfold exchange, Send, Read.
  destruct (conn_Flush (Conn c)) as [conn [e|]]; [discriminate|].
  destruct (Bytes p) as [req|e|]; [|discriminate..].
  cbn [Conn with_Conn].
  destruct (conn_Write conn req) as [conn1 [n [e|]]]; [discriminate|].
  destruct (negb (n =? len req)); [discriminate|].
  cbn [Conn with_Conn].
  destruct (conn_ReadAll conn1) as [conn2 [response [e|]]]; [discriminate|].
  simpl. intros [= ->]. reflexivity.
Qed.

(** After an operation that returns no error, the last response of the
    client is the frame the result was parsed from: the parser of the
    operation accepts it and gives that result.  For
    [FindUnregisteredInverter] the inverter returned has the address 0 and
    the payload of that frame as its serial. *)
Theorem success_parsed_from_LastResponse (c : Client C) (inv : Inverter)
    (address : byte) :
  (forall found : Inverter,
      snd (FindUnregisteredInverter c) = Ok found ->
      Address found = 0 /\
      ParseUnregisteredInverterResponse
        (LastResponse (fst (FindUnregisteredInverter c)))
      = Ok {| UnregisteredInverterResponse.Serial := Serial found |}) /\
  (snd (RegisterInverter c (Some inv) address) = Ok tt ->
   ParseRegisterInverterResponse
     (LastResponse (fst (fst (RegisterInverter c (Some inv) address))))
   = Ok tt) /\
  (snd (UnregisterInverter c (Some inv)) = Ok tt ->
   ParseUnregisterInverterResponse
     (LastResponse (fst (fst (UnregisterInverter c (Some inv))))) = Ok tt) /\
  (forall r : NormalInfoResponse,
      snd (GetInfo c (Some inv)) = Ok r ->
      ParseNormalInfoResponse (LastResponse (fst (GetInfo c (Some inv))))
      = Ok r) /\
  (forall r : InverterInfoResponse,
      snd (GetInverterInfo c (Some inv)) = Ok r ->
      ParseInverterInfoResponse
        (LastResponse (fst (GetInverterInfo c (Some inv)))) = Ok r).
Proof.
  rewrite FindUnregisteredInverter_exchange, RegisterInverter_exchange,
    UnregisterInverter_exchange, GetInfo_exchange, GetInverterInfo_exchange.
  split; [|split; [|split; [|split]]].
  - intros found.
    pose proof (exchange_LastResponse c UnregisteredInverterRequest) as L.
    destruct (exchange c _) as [c' [resp|e|]]; simpl in *; [|discriminate..].
    specialize (L resp eq_refl).
    destruct (len resp =? 0); [discriminate|].
    destruct (ParseUnregisteredInverterResponse resp) as [[serial]|e|] eqn:E;
      simpl; [|discriminate..].
    intros [= <-]. simpl. split; [reflexivity|]. rewrite L. exact E.
  - pose proof (exchange_LastResponse c
                  (RegisterInverterRequest (Serial inv) address)) as L.
    destruct (exchange c _) as [c' [resp|e|]]; simpl in *; [|discriminate..].
    specialize (L resp eq_refl).
    destruct (ParseRegisterInverterResponse resp) as [[]|e|] eqn:E;
      simpl; [|discriminate..].
    intros _. rewrite L. exact E.
  - pose proof (exchange_LastResponse c
                  (UnregisterInverterRequest (Serial inv) (Address inv)))
      as L.
    destruct (exchange c _) as [c' [resp|e|]]; simpl in *; [|discriminate..].
    specialize (L resp eq_refl).
    destruct (ParseUnregisterInverterResponse resp) as [[]|e|] eqn:E;
      simpl; [|discriminate..].
    intros _. rewrite L. exact E.
  - intros r.
    pose proof (exchange_LastResponse c (NormalInfoRequest (Address inv)))
      as L.
    destruct (exchange c _) as [c' [resp|e|]]; simpl in *; [|discriminate..].
    specialize (L resp eq_refl). intros E. rewrite L. exact E.
  - intros r.
    pose proof (exchange_LastResponse c (InverterInfoRequest (Address inv)))
      as L.
    destruct (exchange c _) as [c' [resp|e|]]; simpl in *; [|discriminate..].
    specialize (L resp eq_refl). intros E. rewrite L. exact E.
Qed.

End ClientFurther.

Lemma flush_error_aborts_witness :
  let c := NewClientWithConnection
             (Script.mk (Some (Transport "port closed")) None 0 [] None []) in
  GetInfo c (Some {| Serial := []; Address := 0x0A |})
  = (c, Err (Transport "port closed")).
Proof.
  intros c.
  apply (flush_error_aborts c {| Serial := []; Address := 0x0A |} 0
                            (Conn c) (Transport "port closed")).
  reflexivity.
Defined.



(** * The parsers and the addresses of a frame *)

(** No response parser looks at the source or the destination of the frame:
    two frames that differ only in these fields get the same result from
    each of the five parsers, so a response is accepted whichever device it
    names as its sender. *)
Theorem response_parsers_ignore_addresses (p : Packet) (source destination : Z) :
  wf_packet p -> Header p = 0xAA55 -> len (Data p) <= 255 ->
  is_uint16 source -> is_uint16 destination ->
  exists bs bs' : list byte,
    Bytes p = Ok bs /\
    Bytes (with_addresses p source destination) = Ok bs' /\
    ParseUnregisteredInverterResponse bs'
    = ParseUnregisteredInverterResponse bs /\
    ParseRegisterInverterResponse bs' = ParseRegisterInverterResponse bs /\
    ParseUnregisterInverterResponse bs' = ParseUnregisterInverterResponse bs /\
    ParseNormalInfoResponse bs' = ParseNormalInfoResponse bs /\
    ParseInverterInfoResponse bs' = ParseInverterInfoResponse bs.
Proof.
  intros W Hh Hle Hs Hd.
  assert (W' : wf_packet (with_addresses p source destination)).
  { destruct W as (W1 & W2 & W3 & W4 & W5 & W6).
    unfold wf_packet. cbn [with_addresses Header Source Destination
                           ControlCode FunctionCode Data]. auto 10. }
  destruct (ParsePacket_of_Bytes p W Hle) as (bs & Hb & Hp).
  destruct (ParsePacket_of_Bytes _ W' Hle) as (bs' & Hb' & Hp').
  cbn [with_addresses Header] in Hp'.
  rewrite Hh in Hp, Hp'. cbn in Hp, Hp'.
  exists bs, bs'. split; [exact Hb|]. split; [exact Hb'|].
  unfold ParseUnregisteredInverterResponse, ParseRegisterInverterResponse,
    ParseUnregisterInverterResponse, ParseNormalInfoResponse,
    ParseInverterInfoResponse.
  rewrite Hp, Hp'. cbn [bind with_addresses ControlCode FunctionCode Data].
  repeat split; reflexivity.
Qed.

Lemma response_parsers_ignore_addresses_witness :
  exists bs' : list byte,
    Bytes {| Header := 0xAA55; Source := 0x00FF; Destination := 0x0102;
             ControlCode := 0x10; FunctionCode := 0x81; Data := [0x06] |}
    = Ok bs' /\
    ParseRegisterInverterResponse bs' = Ok tt.
Proof.
  destruct (response_parsers_ignore_addresses
              {| Header := 0xAA55; Source := 0; Destination := 0;
                 ControlCode := 0x10; FunctionCode := 0x81; Data := [0x06] |}
              0x00FF 0x0102)
    as (bs & bs' & Hb & Hb' & _ & Hr & _).
  - in_range.
  - reflexivity.
  - vm_compute. discriminate.
  - in_range.
  - in_range.
  - exists bs'. split; [exact Hb'|]. rewrite Hr.
    vm_compute in Hb. injection Hb as <-. reflexivity.
Defined.
